(** * Chat-with-PDF: the query endpoint (backend/main.py) and the evaluation
    harness (backend/eval.py), as a shallow embedding.

    Python values are modelled as follows: [int] is [Z], [float] is a real
    number [R] (no NaN, no infinities, no rounding), [str] is [string] (a
    sequence of code points below 256), a [dict] with string keys is a
    [gmap string _], a parsed JSON document is a [json] tree.  Code that
    raises runs in a state-and-exception monad over an explicit world that
    records every call made to a collaborator. *)

From Stdlib Require Import Reals Lra ZArith Lia Ascii.
From stdpp Require Import gmap strings list.

Local Set Warnings "-register-all".

(** ** Python-level data shared by the two programs *)

Module Py.

(** What [json.loads] returns and [json.dump] accepts. [JNull] is [None]. *)
Inductive json : Type :=
  | JNull
  | JBool (b : bool)
  | JInt (z : Z)
  | JFloat (x : R)
  | JStr (s : string)
  | JArr (l : list json)
  | JObj (m : gmap string json).

(** Exceptions, all of them subclasses of [Exception]. *)
Inductive exn : Type :=
  | HTTPException (status_code : Z) (detail : string)
  | AttributeError (what : string)
  | ValueError (what : string)
  | RequestException
  | HTTPError (status_code : Z)
  | JSONDecodeError
  | OSError (what : string)
  | KeyError (key : string)
  | Exception (what : string).

(** A computation over a world [S] that returns an [A] or raises; the world
    survives the exception. *)
Definition M (S A : Type) : Type := S -> (exn + A) * S.

Definition ret {S A : Type} (a : A) : M S A := fun s => (inr a, s).

Definition bind {S A B : Type} (m : M S A) (k : A -> M S B) : M S B :=
  fun s => match m s with
           | (inl e, s') => (inl e, s')
           | (inr a, s') => k a s'
           end.

Definition raise {S A : Type} (e : exn) : M S A := fun s => (inl e, s).

(** [try: m  except Exception as e: h e]. *)
Definition try_except {S A : Type} (m : M S A) (h : exn -> M S A) : M S A :=
  fun s => match m s with
           | (inl e, s') => h e s'
           | (inr a, s') => (inr a, s')
           end.

Definition modify {S : Type} (f : S -> S) : M S unit := fun s => (inr tt, f s).

(** A [for] loop that threads its accumulator and stops at the first
    exception. *)
Fixpoint for_each {S X A : Type} (xs : list X) (body : A -> X -> M S A) (acc : A)
  : M S A :=
  match xs with
  | [] => ret acc
  | x :: rest => bind (body acc x) (for_each rest body)
  end.

(** Arguments of a [logging] record: the message is formatted lazily, and a
    formatting error never reaches the caller. *)
Inductive LogArg : Type :=
  | ArgStr (s : string)
  | ArgInt (z : Z)
  | ArgFloat (x : R)
  | ArgJson (j : json)
  | ArgExn (e : exn).

Inductive Level : Type := INFO | ERROR.

Record LogRecord : Type := { levelname : Level; msg : string; args : list LogArg }.

(** [str.isspace] on one code point below 256. *)
Definition isspace (c : ascii) : bool :=
  let n := nat_of_ascii c in
  ((9 <=? n) && (n <=? 13)) || ((28 <=? n) && (n <=? 32))
  || (n =? 133) || (n =? 160).

(** [s.split()]: maximal runs of non-space characters, [cur] being the run
    read so far. *)
Fixpoint split_from (cur : string) (s : string) : list string :=
  match s with
  | EmptyString => if decide (cur = "") then [] else [cur]
  | String c rest =>
      if isspace c
      then (if decide (cur = "") then [] else [cur]) ++ split_from "" rest
      else split_from (cur +:+ String c "") rest
  end.

Definition split (s : string) : list string := split_from "" s.

End Py.

Export Py.

Declare Scope py_scope.
Delimit Scope py_scope with py.
Notation "x <- m ;; k" := (bind m (fun x => k))
  (at level 100, m at next level, right associativity) : py_scope.
Notation "m ;; k" := (bind m (fun _ => k))
  (at level 100, right associativity) : py_scope.

(** ** backend/main.py: the query service *)

Module Service.

Inductive Model : Type := Gpt35Turbo | Gpt4.

Definition model_name (m : Model) : string :=
  match m with Gpt35Turbo => "gpt-3.5-turbo" | Gpt4 => "gpt-4" end.

(** The [Literal["gpt-3.5-turbo", "gpt-4"]] check. *)
Definition model_of_name (s : string) : option Model :=
  if decide (s = "gpt-3.5-turbo") then Some Gpt35Turbo
  else if decide (s = "gpt-4") then Some Gpt4
  else None.

(** [Settings]: read once at import time. *)
Record Settings : Type := {
  OPENAI_API_KEY : string;
  OPENAI_MODEL_NAME : Model;
  DOCUMENT_DIR : string;
  MAX_CHUNK_SIZE : Z;
  MAX_CHUNK_OVERLAP : Z
}.

(** The defaults of the [Field]s of [Settings], for a given API key. *)
Definition default_settings (key : string) : Settings :=
  {| OPENAI_API_KEY := key; OPENAI_MODEL_NAME := Gpt35Turbo;
     DOCUMENT_DIR := "documents"; MAX_CHUNK_SIZE := 2048;
     MAX_CHUNK_OVERLAP := 1024 |}.

(** The body of a POST, field by field: [None] is a field left out. The
    fields carry values of their declared JSON type. *)
Record RawRequest : Type := {
  raw_question : option string;
  raw_chunk_size : option Z;
  raw_chunk_overlap : option Z;
  raw_model : option string
}.

Record QueryRequest : Type := {
  question : string;
  chunk_size : Z;
  chunk_overlap : Z;
  model : Model
}.

Record QueryResponse : Type := { answer : string; latency : R }.

Inductive ErrorKind : Type := Missing | MinLength | NotGe | NotLe | NotInLiteral.

Definition FieldError : Type := string * ErrorKind.

(** [question: str = Field(..., min_length=1)] *)
Definition validate_question (v : option string) : ErrorKind + string :=
  match v with
  | None => inl Missing
  | Some s => if (1 <=? String.length s)%nat then inr s else inl MinLength
  end.

(** [int = Field(default, ge=lo, le=hi)]: a default is not validated. *)
Definition validate_int (default lo hi : Z) (v : option Z) : ErrorKind + Z :=
  match v with
  | None => inr default
  | Some z => if (z <? lo)%Z then inl NotGe
              else if (hi <? z)%Z then inl NotLe
              else inr z
  end.

Definition validate_model (default : Model) (v : option string) : ErrorKind + Model :=
  match v with
  | None => inr default
  | Some s => match model_of_name s with
              | Some m => inr m
              | None => inl NotInLiteral
              end
  end.

Definition field_errors {A : Type} (name : string) (r : ErrorKind + A) : list FieldError :=
  match r with inl k => [(name, k)] | inr _ => [] end.

(** Building a [QueryRequest] from a body: every field is checked and the
    errors of all fields are collected. *)
Definition validate (settings : Settings) (raw : RawRequest)
  : list FieldError + QueryRequest :=
  let q := validate_question (raw_question raw) in
  let cs := validate_int 512 1 (MAX_CHUNK_SIZE settings) (raw_chunk_size raw) in
  let co := validate_int 50 0 (MAX_CHUNK_OVERLAP settings) (raw_chunk_overlap raw) in
  let m := validate_model (OPENAI_MODEL_NAME settings) (raw_model raw) in
  match q, cs, co, m with
  | inr q', inr cs', inr co', inr m' =>
      inr {| question := q'; chunk_size := cs'; chunk_overlap := co'; model := m' |}
  | _, _, _, _ =>
      inl (field_errors "question" q ++ field_errors "chunk_size" cs
           ++ field_errors "chunk_overlap" co ++ field_errors "model" m)
  end.

(** The typed view of a JSON body: a field is left out, or present with a
    value of its declared JSON type; the coercions applied to values of other
    types are not modelled ([None]). *)
Definition str_field (body : gmap string json) (name : string) : option (option string) :=
  match body !! name with
  | None => Some None
  | Some (JStr s) => Some (Some s)
  | Some _ => None
  end.

Definition int_field (body : gmap string json) (name : string) : option (option Z) :=
  match body !! name with
  | None => Some None
  | Some (JInt z) => Some (Some z)
  | Some _ => None
  end.

Definition parse_body (body : gmap string json) : option RawRequest :=
  q ← str_field body "question";
  cs ← int_field body "chunk_size";
  co ← int_field body "chunk_overlap";
  m ← str_field body "model";
  Some {| raw_question := q; raw_chunk_size := cs; raw_chunk_overlap := co;
          raw_model := m |}.

(** A valid request: a non-empty question, and every field that is given
    within its bounds. *)
Definition valid_request (settings : Settings) (raw : RawRequest) : Prop :=
  (exists q, raw_question raw = Some q /\ q <> "")
  /\ (forall cs, raw_chunk_size raw = Some cs -> 1 <= cs <= MAX_CHUNK_SIZE settings)%Z
  /\ (forall co, raw_chunk_overlap raw = Some co -> 0 <= co <= MAX_CHUNK_OVERLAP settings)%Z
  /\ (forall m, raw_model raw = Some m -> m = "gpt-3.5-turbo" \/ m = "gpt-4").

(** What a path names on the file system. *)
Inductive PathKind : Type := Absent | RegularFile | Directory (readable : bool).

(** [os.path.isdir]: true for an existing directory, readable or not. *)
Definition isdir (k : PathKind) : bool :=
  match k with Directory _ => true | _ => false end.

(** The host: the file system and the monotonic clock, whose [n]-th reading
    is [perf_counter n]. *)
Record Host : Type := {
  path_kind : string -> PathKind;
  perf_counter : nat -> R
}.

(** llama_index and the hosted model, as a black box: each entry point
    returns a value or raises. *)
Record LlamaIndex : Type := {
  Documents : Type;
  LLM : Type;
  ServiceCtx : Type;
  Index : Type;
  QueryEngine : Type;
  Response : Type;
  load_data : string -> exn + Documents;
  OpenAI : Model -> exn + LLM;
  from_defaults : LLM -> Z -> Z -> exn + ServiceCtx;
  from_documents : Documents -> ServiceCtx -> exn + Index;
  as_query_engine : Index -> exn + QueryEngine;
  query : QueryEngine -> string -> exn + Response;
  str : Response -> exn + string
}.

(** The calls made to the collaborator. *)
Inductive Call : Type :=
  | CallLoadData (dir : string)
  | CallOpenAI (m : Model)
  | CallFromDefaults (cs co : Z)
  | CallFromDocuments
  | CallAsQueryEngine
  | CallQuery (q : string).

Record World : Type := {
  clock_reads : nat;
  calls : list Call;
  log : list LogRecord
}.

Definition initial : World := {| clock_reads := 0; calls := []; log := [] |}.

Definition logger (lvl : Level) (m : string) (a : list LogArg) : M World unit :=
  modify (fun w => {| clock_reads := clock_reads w; calls := calls w;
                      log := log w ++ [ {| levelname := lvl; msg := m; args := a |} ] |}).

Definition time_perf_counter (host : Host) : M World R :=
  fun w => (inr (perf_counter host (clock_reads w)),
            {| clock_reads := S (clock_reads w); calls := calls w; log := log w |}).

(** A call to the collaborator: recorded, then its outcome. *)
Definition call {A : Type} (c : Call) (outcome : exn + A) : M World A :=
  fun w => (outcome,
            {| clock_reads := clock_reads w; calls := calls w ++ [c]; log := log w |}).

(** A library method that is not a collaborator entry point ([str(result)]). *)
Definition lift {A : Type} (outcome : exn + A) : M World A := fun w => (outcome, w).

Section Endpoint.

Variable settings : Settings.
Variable host : Host.
Variable lib : LlamaIndex.

Local Open Scope py_scope.

(** [query_llm], lines 91-126. *)
Definition query_llm (request : QueryRequest) : M World QueryResponse :=
  logger INFO "Incoming query: %r" [ArgStr (question request)] ;;
  t0 <- time_perf_counter host ;;
  let doc_dir := DOCUMENT_DIR settings in
  if negb (isdir (path_kind host doc_dir)) then
    logger ERROR "Document directory %r not found" [ArgStr doc_dir] ;;
    raise (HTTPException 500 "Document directory not found")
  else
    documents <- try_except
      (call (CallLoadData doc_dir) (load_data lib doc_dir))
      (fun e => logger ERROR "Failed to load documents" [] ;;
                raise (HTTPException 500 "Could not read documents")) ;;
    answer <- try_except
      (llm <- call (CallOpenAI (model request)) (OpenAI lib (model request)) ;;
       svc_ctx <- call (CallFromDefaults (chunk_size request) (chunk_overlap request))
                    (from_defaults lib llm (chunk_size request) (chunk_overlap request)) ;;
       index <- call CallFromDocuments (from_documents lib documents svc_ctx) ;;
       query_engine <- call CallAsQueryEngine (as_query_engine lib index) ;;
       result <- call (CallQuery (question request))
                   (query lib query_engine (question request)) ;;
       lift (str lib result))
      (fun e => logger ERROR "LLM/RAG pipeline error" [] ;;
                raise (HTTPException 500 "Failed to generate answer")) ;;
    t1 <- time_perf_counter host ;;
    let latency := (t1 - t0)%R in
    logger INFO "Answered in %.3fs" [ArgFloat latency] ;;
    ret {| answer := answer; latency := latency |}.

(** The body of an HTTP reply. *)
Inductive Body : Type :=
  | AnswerBody (r : QueryResponse)
  | DetailBody (detail : string)
  | ValidationBody (errors : list FieldError).

Record HttpReply : Type := { status : Z; body : Body }.

(** [@app.post("/query", response_model=QueryResponse)]: the framework builds
    the [QueryRequest] and answers 422 when that fails, without entering the
    handler; an [HTTPException] becomes its status, any other exception 500. *)
Definition post_query (raw : RawRequest) : World -> HttpReply * World :=
  fun w =>
    match validate settings raw with
    | inl errors => ({| status := 422; body := ValidationBody errors |}, w)
    | inr request =>
        match query_llm request w with
        | (inr r, w') => ({| status := 200; body := AnswerBody r |}, w')
        | (inl (HTTPException code detail), w') =>
            ({| status := code; body := DetailBody detail |}, w')
        | (inl _, w') =>
            ({| status := 500; body := DetailBody "Internal Server Error" |}, w')
        end
    end.

End Endpoint.

(** The JSON document sent for a [QueryResponse]. *)
Definition response_json (r : QueryResponse) : json :=
  JObj (<["answer" := JStr (answer r)]> (<["latency" := JFloat (latency r)]> ∅)).

Definition client_error (code : Z) : Prop := (400 <= code < 500)%Z.
Definition server_error (code : Z) : Prop := (500 <= code < 600)%Z.

(** A monotonic clock: later readings are not smaller. *)
Definition monotonic (host : Host) : Prop :=
  forall i j : nat, (i <= j)%nat -> (perf_counter host i <= perf_counter host j)%R.

End Service.

(** ** backend/eval.py: the evaluation harness *)

Module Harness.

Record TestQuery : Type := { question : string; expected : string }.

Definition TEST_QUERIES : list TestQuery :=
  [ {| question := "What is the candidate's experience with Python?";
       expected := "The candidate has experience with Python in projects at Temenos and Thomson Reuters." |};
    {| question := "Where is the candidate studying?";
       expected := "The candidate is pursuing an MS in Computer Science at San Jose State University." |} ].

(** How [requests.post] ends: it raises, or it returns a response with a
    status and a body; [parsed] is what [resp.json()] returns, [None] when
    the body is not JSON and [resp.json()] raises. *)
Inductive PostOutcome : Type :=
  | Unreachable
  | Responded (status_code : Z) (parsed : option json).

Record Response : Type := { status_code : Z; parsed : option json }.

(** The surroundings of the script. [post n endpoint payload] is the outcome
    of the [n]-th request of the run; [sentence_bleu] is NLTK's scorer with
    [smoothing_function=SmoothingFunction().method4], whose result, a Python
    float or the int 0, is read as a real number; [strftime] is the time
    stamp read at the end of the run; [can_open name] tells whether
    [open(name, "w")] succeeds. *)
Record Env : Type := {
  post : nat -> string -> gmap string json -> PostOutcome;
  sentence_bleu : list (list string) -> list string -> exn + R;
  strftime : string;
  can_open : string -> bool
}.

Record World : Type := {
  posts : list (string * gmap string json);
  clock_reads : nat;
  log : list LogRecord;
  files : gmap string json
}.

Definition initial : World :=
  {| posts := []; clock_reads := 0; log := []; files := ∅ |}.

Definition logger (lvl : Level) (m : string) (a : list LogArg) : M World unit :=
  modify (fun w => {| posts := posts w; clock_reads := clock_reads w;
                      log := log w ++ [ {| levelname := lvl; msg := m; args := a |} ];
                      files := files w |}).

(** [time.time()], whose value [evaluate] never uses. *)
Definition time_time : M World unit :=
  modify (fun w => {| posts := posts w; clock_reads := S (clock_reads w);
                      log := log w; files := files w |}).

Definition requests_post (env : Env) (endpoint : string) (payload : gmap string json)
  : M World Response :=
  fun w =>
    let w' := {| posts := posts w ++ [(endpoint, payload)];
                 clock_reads := clock_reads w; log := log w; files := files w |} in
    match post env (length (posts w)) endpoint payload with
    | Unreachable => (inl RequestException, w')
    | Responded code p => (inr {| status_code := code; parsed := p |}, w')
    end.

(** [resp.raise_for_status()] raises for the statuses 400 to 599. *)
Definition raise_for_status (resp : Response) : M World unit :=
  if ((400 <=? status_code resp) && (status_code resp <? 600))%Z
  then raise (HTTPError (status_code resp))
  else ret tt.

Definition resp_json (resp : Response) : M World json :=
  match parsed resp with
  | Some data => ret data
  | None => raise JSONDecodeError
  end.

(** [data.get(key, dflt)]: only a dict has [get]. *)
Definition get (data : json) (key : string) (dflt : json) : M World json :=
  match data with
  | JObj m => ret (default dflt (m !! key))
  | _ => raise (AttributeError "get")
  end.

(** [v.split()]: only a str has [split]. *)
Definition str_split (v : json) : M World (list string) :=
  match v with
  | JStr s => ret (split s)
  | _ => raise (AttributeError "split")
  end.

(** [d[key]] *)
Definition getitem (d : gmap string json) (key : string) : M World json :=
  match d !! key with
  | Some v => ret v
  | None => raise (KeyError key)
  end.

(** Truth value of a JSON value, as [or] tests it. *)
Definition truthy (v : json) : bool :=
  match v with
  | JNull => false
  | JBool b => b
  | JInt z => negb (z =? 0)%Z
  | JFloat x => if Req_dec_T x 0 then false else true
  | JStr s => negb (bool_decide (s = ""))
  | JArr l => negb (bool_decide (length l = 0%nat))
  | JObj m => negb (bool_decide (dom m = (∅ : gset string)))
  end.

Definition py_or (a b : json) : json := if truthy a then a else b.

Definition default_chunk_overlap : Z := 50.
Definition default_endpoint : string := "http://localhost:8000/query".

(** The dict returned when the request fails, line 61. *)
Definition failure_result (chunk_size : Z) : gmap string json :=
  {[ "chunk_size" := JInt chunk_size; "latency" := JNull;
     "bleu" := JFloat 0; "answer" := JStr "" ]}.

(** The dict built at lines 49-53. *)
Definition payload (question : string) (chunk_size chunk_overlap : Z) : gmap string json :=
  {[ "question" := JStr question; "chunk_size" := JInt chunk_size;
     "chunk_overlap" := JInt chunk_overlap ]}.

Section Script.

Variable env : Env.

Local Open Scope py_scope.

(** [evaluate], lines 42-73. The [try] block yields the parsed body; the
    [except] block returns from the function, which is the [inl] case. *)
Definition evaluate (question expected : string) (chunk_size chunk_overlap : Z)
    (endpoint : string) : M World (gmap string json) :=
  let payload := payload question chunk_size chunk_overlap in
  time_time ;;
  outcome <- try_except
    (resp <- requests_post env endpoint payload ;;
     raise_for_status resp ;;
     data <- resp_json resp ;;
     ret (inr data))
    (fun e => logger ERROR "Request failed: %s" [ArgExn e] ;;
              ret (inl (failure_result chunk_size))) ;;
  match outcome with
  | inl returned => ret returned
  | inr data =>
      latency <- get data "latency" JNull ;;
      answer <- get data "answer" (JStr "") ;;
      reference <- ret [split expected] ;;
      hypothesis <- str_split answer ;;
      bleu <- (fun w => (sentence_bleu env reference hypothesis, w)) ;;
      ret ({[ "chunk_size" := JInt chunk_size; "latency" := latency;
              "bleu" := JFloat bleu; "answer" := answer ]} : gmap string json)
  end.

(** [open(out_file, "w")] followed by [json.dump(results, f, indent=2)], as
    one step that fails only when the file cannot be opened; a failure while
    the document is being written, after the file was opened, is outside
    this model. *)
Definition write_json (out_file : string) (doc : json) : M World unit :=
  if can_open env out_file
  then modify (fun w => {| posts := posts w; clock_reads := clock_reads w;
                           log := log w; files := <[out_file := doc]> (files w) |})
  else raise (OSError out_file).

(** The body of the inner loop, lines 83-88. *)
Definition step (cs : Z) (results : list (gmap string json)) (tq : TestQuery)
  : M World (list (gmap string json)) :=
  res <- evaluate (question tq) (expected tq) cs default_chunk_overlap
           default_endpoint ;;
  a <- getitem res "answer" ;;
  l <- getitem res "latency" ;;
  b <- getitem res "bleu" ;;
  logger INFO "Q: %s\nA: %s\nLatency: %.3fs | BLEU: %.2f\n"
    [ArgStr (question tq); ArgJson a; ArgJson (py_or l (JInt 0)); ArgJson b] ;;
  ret (results ++ [ <["question" := JStr (question tq)]> res ]).

(** The body of the outer loop, lines 81-88. *)
Definition pass (queries : list TestQuery) (results : list (gmap string json))
    (cs : Z) : M World (list (gmap string json)) :=
  logger INFO "Evaluating chunk_size=%d" [ArgInt cs] ;;
  for_each queries (step cs) results.

(** The two nested loops, lines 79-88. *)
Definition sweep (chunk_sizes : list Z) (queries : list TestQuery)
  : M World (list (gmap string json)) :=
  for_each chunk_sizes (pass queries) [].

Definition out_file : string := "eval_results_" +:+ strftime env +:+ ".json".

(** The body of [main], lines 78-95, with its two literal lists as
    parameters. *)
Definition run_evaluation (chunk_sizes : list Z) (queries : list TestQuery)
  : M World unit :=
  results <- sweep chunk_sizes queries ;;
  write_json out_file (JArr (map JObj results)) ;;
  logger INFO "Saved evaluation results to %s" [ArgStr out_file].

Definition main : M World unit := run_evaluation [256; 512; 1024]%Z TEST_QUERIES.

End Script.

(** One record per (chunk_size, query) pair, in the order of the sweep, each
    the failure dict tagged with its question. *)
Definition zero_rows (chunk_sizes : list Z) (queries : list TestQuery)
  : list (gmap string json) :=
  flat_map (fun cs =>
    map (fun tq => <["question" := JStr (question tq)]> (failure_result cs)) queries)
    chunk_sizes.

(** The request did not produce a parsed body: [requests.post] raised, the
    status is an error status, or the body is not JSON. *)
Definition call_failed (o : PostOutcome) : Prop :=
  match o with
  | Unreachable => True
  | Responded code p => (400 <= code < 600)%Z \/ p = None
  end.

(** A request of the sweep over [chunk_sizes] and [queries]: to the default
    endpoint, with the payload of one of the pairs and the default overlap. *)
Definition sent (chunk_sizes : list Z) (queries : list TestQuery)
    (x : string * gmap string json) : Prop :=
  x.1 = default_endpoint
  /\ exists cs tq, cs ∈ chunk_sizes /\ tq ∈ queries
       /\ x.2 = payload (question tq) cs default_chunk_overlap.

(** Every request of the run fails. *)
Definition all_fail (env : Env) : Prop :=
  forall n endpoint p, call_failed (post env n endpoint p).

End Harness.

(** ** The scorer called at line 66 of backend/eval.py *)

Module Bleu.

(** [sentence_bleu] and [SmoothingFunction().method4] are imported from
    [nltk.translate.bleu_score], which is not under src/. The spec describes
    the score as "a smoothed n-gram precision metric (BLEU with smoothing to
    avoid zero scores from short or partially-overlapping outputs)" over
    whitespace tokens, 0.0 for an empty answer. The definitions of this
    module spell that metric out the way NLTK computes it: clipped n-gram
    precisions for n = 1..4 with weights 0.25, the brevity penalty, method 4
    smoothing with k = 5, and the score 0 when no unigram matches; floats are
    real numbers. *)

(** Modelled from the spec: NLTK's [ngrams] is not under src/; the windows of
    [n] consecutive tokens, none when the text is shorter than [n]. *)
Fixpoint ngrams (n : nat) (tokens : list string) : list (list string) :=
  match tokens with
  | [] => []
  | _ :: rest =>
      if (n <=? length tokens)%nat then take n tokens :: ngrams n rest else []
  end.

(** Modelled from the spec: [Counter(gs)[g]] of NLTK's [modified_precision],
    not under src/; the number of occurrences of the n-gram [g]. *)
Fixpoint count (g : list string) (gs : list (list string)) : nat :=
  match gs with
  | [] => 0
  | x :: rest => (if decide (x = g) then 1 else 0) + count g rest
  end.

(** Modelled from the spec: [max_counts[g]] of NLTK's [modified_precision],
    not under src/; the largest count of [g] among the references. *)
Definition max_count (n : nat) (references : list (list string)) (g : list string) : nat :=
  foldr (fun reference acc => Nat.max acc (count g (ngrams n reference))) 0%nat references.

(** Modelled from the spec: NLTK's [modified_precision] is not under src/; the
    n-gram precision with clipped counts, as the numerator and the
    denominator of a fraction that is not reduced. *)
Definition modified_precision (references : list (list string))
    (hypothesis : list string) (n : nat) : nat * nat :=
  let counts := ngrams n hypothesis in
  let numerator :=
    sum_list_with (fun g => Nat.min (count g counts) (max_count n references g))
      (remove_dups counts) in
  (numerator, Nat.max 1 (length counts)).

(** Modelled from the spec: [abs(ref_len - hyp_len)] of NLTK's
    [closest_ref_length], not under src/. *)
Definition abs_diff (a b : nat) : nat := ((a - b) + (b - a))%nat.

(** Modelled from the spec: NLTK's [closest_ref_length] is not under src/; the
    reference length nearest to [hyp_len], the shorter one on a tie; [None]
    when there is no reference. *)
Fixpoint closest_ref_length (references : list (list string)) (hyp_len : nat)
  : option nat :=
  match references with
  | [] => None
  | reference :: rest =>
      let len := length reference in
      match closest_ref_length rest hyp_len with
      | None => Some len
      | Some best =>
          if (abs_diff best hyp_len <? abs_diff len hyp_len)%nat then Some best
          else if (abs_diff best hyp_len =? abs_diff len hyp_len)%nat
                  && (best <? len)%nat then Some best
          else Some len
      end
  end.

(** Modelled from the spec: NLTK's [brevity_penalty] is not under src/; 1 for
    a hypothesis longer than the reference, 0 for an empty hypothesis. *)
Definition brevity_penalty (closest_ref_len hyp_len : nat) : R :=
  if (closest_ref_len <? hyp_len)%nat then 1%R
  else if (hyp_len =? 0)%nat then 0%R
  else exp (1 - INR closest_ref_len / INR hyp_len).

(** Modelled from the spec: NLTK's [SmoothingFunction().method4] is not under
    src/; the "smoothing to avoid zero scores": a precision whose numerator
    is 0 is replaced by [1 / (2^incvnt * k / ln hyp_len) / denominator] when
    the hypothesis has more than one token, [incvnt] starting at 1. *)
Fixpoint method4 (k : R) (hyp_len : nat) (incvnt : nat) (p_n : list (nat * nat))
  : list R :=
  match p_n with
  | [] => []
  | (numerator, denominator) :: rest =>
      if (numerator =? 0)%nat && (1 <? hyp_len)%nat
      then (1 / (2 ^ incvnt * k / ln (INR hyp_len)) / INR denominator)%R
           :: method4 k hyp_len (S incvnt) rest
      else (INR numerator / INR denominator)%R :: method4 k hyp_len incvnt rest
  end.

(** Modelled from the spec: the sum inside NLTK's [corpus_bleu], not under
    src/; [w * log p] summed over the precisions that are positive. *)
Fixpoint log_sum (w : R) (p_n : list R) : R :=
  match p_n with
  | [] => 0%R
  | p :: rest => ((if Rlt_dec 0 p then w * ln p else 0) + log_sum w rest)%R
  end.

(** Modelled from the spec: NLTK's [sentence_bleu(references, hypothesis,
    smoothing_function=method4)] is not under src/; the "smoothed n-gram
    precision metric" of the spec. With no reference NLTK raises. *)
Definition sentence_bleu (references : list (list string)) (hypothesis : list string)
  : exn + R :=
  match references with
  | [] => match hypothesis with
          | [] => inl (ValueError "min() arg is an empty sequence")
          | _ => inl (KeyError "max_counts")
          end
  | _ =>
      let p := map (modified_precision references hypothesis) [1; 2; 3; 4]%nat in
      let hyp_len := length hypothesis in
      match closest_ref_length references hyp_len with
      | None => inl (ValueError "min() arg is an empty sequence")
      | Some ref_len =>
          let bp := brevity_penalty ref_len hyp_len in
          if (fst (modified_precision references hypothesis 1) =? 0)%nat
          then inr 0%R
          else inr (bp * exp (log_sum (1 / 4) (method4 5 hyp_len 1 p)))%R
      end
  end.

(** Line 66: [sentence_bleu([expected.split()], answer.split(), ...)]. *)
Definition score (reference answer : string) : exn + R :=
  sentence_bleu [split reference] (split answer).

(** The surroundings of the harness in which the scorer is NLTK's. *)
Definition with_nltk (env : Harness.Env) : Harness.Env :=
  {| Harness.post := Harness.post env;
     Harness.sentence_bleu := sentence_bleu;
     Harness.strftime := Harness.strftime env;
     Harness.can_open := Harness.can_open env |}.

End Bleu.

(** ** Concrete surroundings used to run the two programs *)

Module Examples.

Import Service.

(** A library whose every entry point succeeds and answers ["42"]. *)
Definition echo_lib : LlamaIndex :=
  {| Documents := unit; LLM := unit; ServiceCtx := unit; Index := unit;
     QueryEngine := unit; Response := unit;
     load_data := fun _ => inr tt;
     OpenAI := fun _ => inr tt;
     from_defaults := fun _ _ _ => inr tt;
     from_documents := fun _ _ => inr tt;
     as_query_engine := fun _ => inr tt;
     query := fun _ _ => inr tt;
     str := fun _ => inr "42" |}.

(** A library that cannot list the document directory. *)
Definition denied_lib : LlamaIndex :=
  {| Documents := unit; LLM := unit; ServiceCtx := unit; Index := unit;
     QueryEngine := unit; Response := unit;
     load_data := fun _ => inl (OSError "Permission denied");
     OpenAI := fun _ => inr tt;
     from_defaults := fun _ _ _ => inr tt;
     from_documents := fun _ _ => inr tt;
     as_query_engine := fun _ => inr tt;
     query := fun _ _ => inr tt;
     str := fun _ => inr "42" |}.

(** Hosts whose clock ticks once per reading, and on which every path is,
    in turn, a readable directory, an unreadable directory, absent. *)
Definition host_with (k : PathKind) : Host :=
  {| path_kind := fun _ => k; perf_counter := INR |}.

Definition settings : Settings := default_settings "sk-test".

Definition raw_python : RawRequest :=
  {| raw_question := Some "Where is the candidate studying?";
     raw_chunk_size := Some 512%Z; raw_chunk_overlap := Some 50%Z;
     raw_model := Some "gpt-3.5-turbo" |}.

Definition raw_too_large : RawRequest :=
  {| raw_question := Some "Where is the candidate studying?";
     raw_chunk_size := Some 4096%Z; raw_chunk_overlap := None;
     raw_model := None |}.

Definition request_python : QueryRequest :=
  {| question := "Where is the candidate studying?"; chunk_size := 512;
     chunk_overlap := 50; model := Gpt35Turbo |}.

(** Surroundings of the harness in which every request ends the same way
    and the scorer always returns the same value. *)
Definition always (o : Harness.PostOutcome) (scored : exn + R) : Harness.Env :=
  {| Harness.post := fun _ _ _ => o;
     Harness.sentence_bleu := fun _ _ => scored;
     Harness.strftime := "20240101-120000";
     Harness.can_open := fun _ => true |}.

(** The service cannot be reached. *)
Definition down_env : Harness.Env := always Harness.Unreachable (inr 0%R).

(** The endpoint answers 200 with a body that has no latency field. *)
Definition no_latency_env : Harness.Env :=
  always (Harness.Responded 200 (Some (JObj {[ "answer" := JStr "San Jose" ]})))
    (inr (1 / 2)%R).

(** The endpoint answers 200 with a body whose answer is a number. *)
Definition bad_answer_env : Harness.Env :=
  always (Harness.Responded 200
            (Some (JObj {[ "answer" := JInt 7; "latency" := JFloat 1 ]})))
    (inr 0%R).

(** The endpoint answers 200 with a body that has no answer field, and the
    scorer is NLTK's. *)
Definition no_answer_env : Harness.Env :=
  Bleu.with_nltk
    (always (Harness.Responded 200 (Some (JObj {[ "latency" := JFloat 1 ]})))
       (inr 0%R)).

Definition first_query : Harness.TestQuery :=
  {| Harness.question := "What is the candidate's experience with Python?";
     Harness.expected := "The candidate has experience with Python in projects at Temenos and Thomson Reuters." |}.

End Examples.

(** ** Traces and shapes the two programs are compared with *)

Module Traces.

(** The calls of a request that goes through, in the order in which
    [query_llm] makes them (lines 102-117). *)
Definition pipeline_calls (settings : Service.Settings) (request : Service.QueryRequest)
  : list Service.Call :=
  [ Service.CallLoadData (Service.DOCUMENT_DIR settings);
    Service.CallOpenAI (Service.model request);
    Service.CallFromDefaults (Service.chunk_size request) (Service.chunk_overlap request);
    Service.CallFromDocuments;
    Service.CallAsQueryEngine;
    Service.CallQuery (Service.question request) ].

(** The three messages of the [HTTPException]s of [query_llm]. *)
Definition error_details : list string :=
  [ "Document directory not found"; "Could not read documents";
    "Failed to generate answer" ].

(** The two log records of a request that goes through (lines 92 and 124). *)
Definition incoming (request : Service.QueryRequest) : LogRecord :=
  {| levelname := INFO; msg := "Incoming query: %r";
     args := [ArgStr (Service.question request)] |}.

Definition answered (latency : R) : LogRecord :=
  {| levelname := INFO; msg := "Answered in %.3fs"; args := [ArgFloat latency] |}.

(** The raw body that carries exactly the three fields of the harness. *)
Definition raw_of (question : string) (chunk_size chunk_overlap : Z) : Service.RawRequest :=
  {| Service.raw_question := Some question;
     Service.raw_chunk_size := Some chunk_size;
     Service.raw_chunk_overlap := Some chunk_overlap;
     Service.raw_model := None |}.

(** The (chunk_size, query) pairs in the order of the two loops of [main]. *)
Definition pairs (chunk_sizes : list Z) (queries : list Harness.TestQuery)
  : list (Z * Harness.TestQuery) :=
  flat_map (fun cs => map (fun tq => (cs, tq)) queries) chunk_sizes.

(** The request [main] sends for a pair. *)
Definition request_of (pair : Z * Harness.TestQuery) : string * gmap string json :=
  (Harness.default_endpoint,
   Harness.payload (Harness.question pair.2) pair.1 Harness.default_chunk_overlap).

(** The keys of the dict returned by [evaluate] and of a record of the
    result file. *)
Definition result_keys : gset string :=
  {[ "chunk_size"; "latency"; "bleu"; "answer" ]}.

Definition row_keys : gset string :=
  {[ "chunk_size"; "latency"; "bleu"; "answer"; "question" ]}.

(** A record of the result file for a pair: the five keys, tagged with the
    chunk size and the question of the pair. *)
Definition row_for (pair : Z * Harness.TestQuery) (row : gmap string json) : Prop :=
  dom row = row_keys
  /\ row !! "chunk_size" = Some (JInt pair.1)
  /\ row !! "question" = Some (JStr (Harness.question pair.2)).

(** No character of [s] is a space for [str.split]. *)
Fixpoint no_space (s : string) : bool :=
  match s with
  | EmptyString => true
  | String c rest => negb (isspace c) && no_space rest
  end.

(** [" ".join(tokens)] *)
Fixpoint join (tokens : list string) : string :=
  match tokens with
  | [] => ""
  | [t] => t
  | t :: rest => t +:+ " " +:+ join rest
  end.

End Traces.

(** Further surroundings used to run the two programs. *)

Module Scenarios.

(** The endpoint answers 200 with a JSON list. *)
Definition list_body_env : Harness.Env :=
  Examples.always (Harness.Responded 200 (Some (JArr [JStr "San Jose"]))) (inr 0%R).

(** The endpoint answers 200 with an answer and a latency, and the scorer
    raises. *)
Definition scorer_raises_env : Harness.Env :=
  Examples.always
    (Harness.Responded 200
       (Some (JObj {[ "answer" := JStr "San Jose"; "latency" := JFloat 2 ]})))
    (inl (ValueError "math domain error")).

(** The endpoint answers 200 with an answer and a latency. *)
Definition answering_env : Harness.Env :=
  Examples.always
    (Harness.Responded 200
       (Some (JObj {[ "answer" := JStr "San Jose"; "latency" := JFloat 2 ]})))
    (inr (1 / 2)%R).

(** As [answering_env], in a directory where no file can be created. *)
Definition read_only_env : Harness.Env :=
  {| Harness.post := Harness.post answering_env;
     Harness.sentence_bleu := Harness.sentence_bleu answering_env;
     Harness.strftime := Harness.strftime answering_env;
     Harness.can_open := fun _ => false |}.

(** Settings whose largest chunk size is below the default chunk size. *)
Definition small_settings : Service.Settings :=
  {| Service.OPENAI_API_KEY := "sk-test";
     Service.OPENAI_MODEL_NAME := Service.Gpt4;
     Service.DOCUMENT_DIR := "documents";
     Service.MAX_CHUNK_SIZE := 256;
     Service.MAX_CHUNK_OVERLAP := 1024 |}.

Definition raw_question_only : Service.RawRequest :=
  {| Service.raw_question := Some "Where is the candidate studying?";
     Service.raw_chunk_size := None; Service.raw_chunk_overlap := None;
     Service.raw_model := None |}.

Definition raw_bad_model : Service.RawRequest :=
  {| Service.raw_question := Some "Where is the candidate studying?";
     Service.raw_chunk_size := None; Service.raw_chunk_overlap := None;
     Service.raw_model := Some "gpt-5" |}.

(** A library whose index build fails. *)
Definition no_index_lib : Service.LlamaIndex :=
  {| Service.Documents := unit; Service.LLM := unit; Service.ServiceCtx := unit;
     Service.Index := unit; Service.QueryEngine := unit; Service.Response := unit;
     Service.load_data := fun _ => inr tt;
     Service.OpenAI := fun _ => inr tt;
     Service.from_defaults := fun _ _ _ => inr tt;
     Service.from_documents := fun _ _ => inl (Exception "rate limit: sk-test");
     Service.as_query_engine := fun _ => inr tt;
     Service.query := fun _ _ => inr tt;
     Service.str := fun _ => inr "42" |}.

(** The harness in front of the service of [Examples]: every request is
    answered by [post_query] on the body the harness sent. *)
Definition served_env : Harness.Env :=
  {| Harness.post := fun _ _ p =>
       match Service.parse_body p with
       | Some raw =>
           let reply := (Service.post_query Examples.settings
                           (Examples.host_with (Service.Directory true))
                           Examples.echo_lib raw Service.initial).1 in
           Harness.Responded (Service.status reply)
             match Service.body reply with
             | Service.AnswerBody r => Some (Service.response_json r)
             | _ => None
             end
       | None => Harness.Unreachable
       end;
     Harness.sentence_bleu := fun _ _ => inr (1 / 2)%R;
     Harness.strftime := "20240101-120000";
     Harness.can_open := fun _ => true |}.

(** A short reference pair. *)
Definition short_query : Harness.TestQuery :=
  {| Harness.question := "Where?"; Harness.expected := "San Jose" |}.

End Scenarios.

(** ** Facts about the query service *)

(** Case analysis on the innermost scrutinee first. *)
Ltac cases :=
  repeat match goal with
         | |- context [match ?x with _ => _ end] =>
             lazymatch x with
             | context [match _ with _ => _ end] => fail
             | _ => destruct x eqn:?; simpl
             end
         end.

Module ServiceFacts.

Import Service.

Ltac run :=
  unfold query_llm, bind, try_except, logger, modify, time_perf_counter, call,
    lift, raise, ret; simpl.

Lemma model_of_name_model_name m : model_of_name (model_name m) = Some m.
Proof. destruct m; reflexivity. Qed.

Lemma validate_valid settings raw :
  valid_request settings raw -> exists request, validate settings raw = inr request.
Proof.
  intros ((q & Hq & Hne) & Hcs & Hco & Hm).
  unfold validate, validate_question, validate_int, validate_model.
  rewrite Hq.
  destruct q as [|c q]; [congruence|]. simpl.
  destruct (raw_chunk_size raw) as [cs|] eqn:Ecs.
  - specialize (Hcs cs eq_refl).
    destruct (cs <? 1)%Z eqn:E1; [lia|].
    destruct (MAX_CHUNK_SIZE settings <? cs)%Z eqn:E2; [lia|].
    destruct (raw_chunk_overlap raw) as [co|] eqn:Eco.
    + specialize (Hco co eq_refl).
      destruct (co <? 0)%Z eqn:E3; [lia|].
      destruct (MAX_CHUNK_OVERLAP settings <? co)%Z eqn:E4; [lia|].
      destruct (raw_model raw) as [m|] eqn:Em; [|eauto].
      destruct (Hm m eq_refl) as [-> | ->]; simpl; eauto.
    + destruct (raw_model raw) as [m|] eqn:Em; [|eauto].
      destruct (Hm m eq_refl) as [-> | ->]; simpl; eauto.
  - destruct (raw_chunk_overlap raw) as [co|] eqn:Eco.
    + specialize (Hco co eq_refl).
      destruct (co <? 0)%Z eqn:E3; [lia|].
      destruct (MAX_CHUNK_OVERLAP settings <? co)%Z eqn:E4; [lia|].
      destruct (raw_model raw) as [m|] eqn:Em; [|eauto].
      destruct (Hm m eq_refl) as [-> | ->]; simpl; eauto.
    + destruct (raw_model raw) as [m|] eqn:Em; [|eauto].
      destruct (Hm m eq_refl) as [-> | ->]; simpl; eauto.
Qed.

(** The handler returns a response whose latency is the difference of two
    successive clock readings, or raises an [HTTPException] with status 500. *)
Lemma query_llm_outcome settings host lib request w :
  match query_llm settings host lib request w with
  | (inr r, _) =>
      latency r = (perf_counter host (S (clock_reads w))
                   - perf_counter host (clock_reads w))%R
  | (inl e, _) => exists detail, e = HTTPException 500 detail
  end.
Proof.
  run. cases; eauto.
Qed.

(** C1: a valid request is answered with status 200, a latency that is not
    negative and an answer that is a JSON string, or with a server-error
    status; it is never answered with a client-error status. *)
Theorem valid_request_outcome settings host lib raw w :
  monotonic host ->
  valid_request settings raw ->
  let reply := (post_query settings host lib raw w).1 in
  ((status reply = 200%Z
    /\ exists r, body reply = AnswerBody r /\ (0 <= latency r)%R
       /\ exists m a, response_json r = JObj m /\ m !! "answer" = Some (JStr a))
   \/ server_error (status reply))
  /\ ~ client_error (status reply).
Proof.
  intros Hmono Hvalid. destruct (validate_valid _ _ Hvalid) as [request Hreq].
  unfold post_query. rewrite Hreq.
  pose proof (query_llm_outcome settings host lib request w) as Hout.
  destruct (query_llm settings host lib request w) as [[e|r] w']; simpl.
  - destruct Hout as [detail ->]. simpl.
    unfold server_error, client_error. split; [right|]; lia.
  - unfold client_error. split; [left|simpl; lia].
    split; [reflexivity|]. exists r. split; [reflexivity|]. split.
    + rewrite Hout.
      pose proof (Hmono (clock_reads w) (S (clock_reads w)) ltac:(lia)). lra.
    + eexists _, (answer r). split; [reflexivity|]. reflexivity.
Qed.

Lemma valid_request_outcome_witness :
  monotonic (Examples.host_with (Directory true))
  /\ valid_request Examples.settings Examples.raw_python
  /\ ~ client_error
        (status (post_query Examples.settings (Examples.host_with (Directory true))
                   Examples.echo_lib Examples.raw_python initial).1).
Proof.
  assert (Hm : monotonic (Examples.host_with (Directory true))).
  { intros i j Hij. simpl. apply le_INR. exact Hij. }
  assert (Hv : valid_request Examples.settings Examples.raw_python).
  { split; [|split; [|split]].
    - exists "Where is the candidate studying?". split; [reflexivity|discriminate].
    - intros cs H. simpl in H. injection H as <-. simpl. lia.
    - intros co H. simpl in H. injection H as <-. simpl. lia.
    - intros m H. simpl in H. injection H as <-. left. reflexivity. }
  split; [exact Hm|]. split; [exact Hv|].
  exact (proj2 (valid_request_outcome Examples.settings
                  (Examples.host_with (Directory true)) Examples.echo_lib
                  Examples.raw_python initial Hm Hv)).
Defined.

(** C4, as stated, fails: the bounds are checked on a chunk_size that the
    body gives, not on the default. Under settings whose MAX_CHUNK_SIZE is
    256, a body that leaves chunk_size out is handled with chunk_size 512:
    the reply is 200 and the six collaborator calls are made. *)
Lemma default_chunk_size_above_maximum :
  let out := post_query Scenarios.small_settings (Examples.host_with (Directory true))
               Examples.echo_lib Scenarios.raw_question_only initial in
  validate Scenarios.small_settings Scenarios.raw_question_only
  = inr {| question := "Where is the candidate studying?"; chunk_size := 512;
           chunk_overlap := 50; model := Gpt4 |}
  /\ (512 > MAX_CHUNK_SIZE Scenarios.small_settings)%Z
  /\ status out.1 = 200%Z
  /\ ~ client_error (status out.1)
  /\ calls out.2
     = [ CallLoadData "documents"; CallOpenAI Gpt4; CallFromDefaults 512 50;
         CallFromDocuments; CallAsQueryEngine;
         CallQuery "Where is the candidate studying?" ].
Proof.
  split; [reflexivity|]. split; [reflexivity|]. split; [reflexivity|].
  split; [|reflexivity]. simpl. unfold client_error. lia.
Qed.

(** C4, amended: a request whose body gives a chunk_size that is at most 0
    or above MAX_CHUNK_SIZE is answered with the client-error status 422,
    and the world is left as it was: no collaborator call, no clock reading,
    no log line. *)
Theorem chunk_size_out_of_bounds settings host lib raw w cs :
  raw_chunk_size raw = Some cs ->
  (cs <= 0 \/ cs > MAX_CHUNK_SIZE settings)%Z ->
  let out := post_query settings host lib raw w in
  client_error (status out.1) /\ status out.1 = 422%Z
  /\ out.2 = w /\ calls out.2 = calls w.
Proof.
  intros Hcs Hbad. unfold post_query.
  assert (Hk : exists k, validate_int 512 1 (MAX_CHUNK_SIZE settings) (Some cs) = inl k).
  { unfold validate_int.
    destruct (cs <? 1)%Z eqn:E1; [eauto|].
    destruct (MAX_CHUNK_SIZE settings <? cs)%Z eqn:E2; [eauto|lia]. }
  assert (Hv : exists errors, validate settings raw = inl errors).
  { unfold validate. rewrite Hcs. destruct Hk as [k ->].
    destruct (validate_question _), (validate_int 50 _ _ _), (validate_model _ _);
      simpl; eauto. }
  destruct Hv as [errors ->]. simpl. unfold client_error. repeat split; lia.
Qed.

Lemma chunk_size_out_of_bounds_witness :
  raw_chunk_size Examples.raw_too_large = Some 4096%Z
  /\ (4096 > MAX_CHUNK_SIZE Examples.settings)%Z
  /\ status (post_query Examples.settings (Examples.host_with (Directory true))
               Examples.echo_lib Examples.raw_too_large initial).1 = 422%Z
  /\ (post_query Examples.settings (Examples.host_with (Directory true))
        Examples.echo_lib Examples.raw_too_large initial).2 = initial.
Proof.
  split; [reflexivity|]. split; [reflexivity|].
  destruct (chunk_size_out_of_bounds Examples.settings
              (Examples.host_with (Directory true)) Examples.echo_lib
              Examples.raw_too_large initial 4096%Z eq_refl
              (or_intror eq_refl)) as (_ & Hstatus & Hworld & _).
  split; [exact Hstatus|exact Hworld].
Defined.

(** C8, as stated, fails: on an existing directory that cannot be read,
    [os.path.isdir] is true, so the handler goes on to the document load,
    which is the call that fails; the error is the one of the load. *)
Lemma unreadable_directory_is_loaded :
  let host := Examples.host_with (Directory false) in
  let out := query_llm Examples.settings host Examples.denied_lib
               Examples.request_python initial in
  path_kind host (DOCUMENT_DIR Examples.settings) = Directory false
  /\ out.1 = inl (HTTPException 500 "Could not read documents")
  /\ calls out.2 = [CallLoadData "documents"]
  /\ ~ (out.1 = inl (HTTPException 500 "Document directory not found")
        /\ calls out.2 = calls initial).
Proof.
  simpl. repeat split. intros [H _]. discriminate H.
Qed.

(** C8, amended: when the configured location is not an existing directory,
    the handler raises status 500 with "Document directory not found", and no
    collaborator call is made. *)
Theorem missing_document_dir settings host lib request w :
  isdir (path_kind host (DOCUMENT_DIR settings)) = false ->
  let out := query_llm settings host lib request w in
  out.1 = inl (HTTPException 500 "Document directory not found")
  /\ server_error 500
  /\ calls out.2 = calls w.
Proof.
  intros Hdir. run. rewrite Hdir. simpl. unfold server_error.
  repeat split; lia.
Qed.

Lemma missing_document_dir_witness :
  isdir (path_kind (Examples.host_with Absent) (DOCUMENT_DIR Examples.settings)) = false
  /\ (query_llm Examples.settings (Examples.host_with Absent) Examples.echo_lib
        Examples.request_python initial).1
     = inl (HTTPException 500 "Document directory not found").
Proof.
  split; [reflexivity|].
  exact (proj1 (missing_document_dir Examples.settings (Examples.host_with Absent)
                  Examples.echo_lib Examples.request_python initial eq_refl)).
Defined.

End ServiceFacts.

(** ** Facts about the evaluation harness *)

Module HarnessFacts.

Import Harness.

Ltac run :=
  unfold evaluate, bind, try_except, requests_post, raise_for_status, resp_json,
    get, str_split, time_time, logger, modify, raise, ret; simpl.

Example split_whitespace :
  split "  The candidate   is
pursuing " = ["The"; "candidate"; "is"; "pursuing"].
Proof. reflexivity. Qed.

Example split_empty : split "" = [] /\ split "   " = [].
Proof. split; reflexivity. Qed.

Lemma failure_result_lookups cs :
  failure_result cs !! "chunk_size" = Some (JInt cs)
  /\ failure_result cs !! "latency" = Some JNull
  /\ failure_result cs !! "bleu" = Some (JFloat 0)
  /\ failure_result cs !! "answer" = Some (JStr "").
Proof. repeat split. Qed.

(** A failed request makes [evaluate] return the failure dict; one request
    was sent and no file was touched. *)
Lemma evaluate_failed env question expected cs co endpoint w :
  call_failed (post env (length (posts w)) endpoint (payload question cs co)) ->
  exists w',
    evaluate env question expected cs co endpoint w = (inr (failure_result cs), w')
    /\ posts w' = posts w ++ [(endpoint, payload question cs co)]
    /\ files w' = files w.
Proof.
  intros Hfail. run.
  destruct (post env _ _ _) as [|code p]; simpl in *.
  - eexists. repeat split.
  - destruct ((400 <=? code)%Z && (code <? 600)%Z) eqn:E; simpl.
    + eexists. repeat split.
    + destruct Hfail as [H | ->]; [lia|]. simpl. eexists. repeat split.
Qed.

(** The inner loop body on a failed request: the failure dict, tagged with
    the question, is appended. *)
Lemma step_failed env cs tq w :
  call_failed (post env (length (posts w)) default_endpoint
                 (payload (question tq) cs default_chunk_overlap)) ->
  exists w',
    (forall results,
       step env cs results tq w
       = (inr (results ++ [ <["question" := JStr (question tq)]> (failure_result cs) ]),
          w'))
    /\ posts w' = posts w ++ [(default_endpoint,
                               payload (question tq) cs default_chunk_overlap)]
    /\ files w' = files w.
Proof.
  intros Hfail.
  destruct (evaluate_failed env (question tq) (expected tq) cs default_chunk_overlap
              default_endpoint w Hfail) as (w1 & Hev & Hposts & Hfiles).
  eexists. split; [|split].
  - intros results. unfold step, bind at 1. rewrite Hev.
    unfold bind, getitem, logger, modify, ret. simpl. reflexivity.
  - simpl. exact Hposts.
  - simpl. exact Hfiles.
Qed.

(** C2: for a pair of the sweep whose request fails (the connection fails,
    the status is an error status, or the body does not parse), [evaluate]
    returns the dict with latency null, bleu 0.0 and answer "", and the loop
    goes on with the remaining pairs after appending that dict. *)
Theorem failed_call_recorded env cs tq w :
  call_failed (post env (length (posts w)) default_endpoint
                 (payload (question tq) cs default_chunk_overlap)) ->
  exists res w1 w2,
    evaluate env (question tq) (expected tq) cs default_chunk_overlap
      default_endpoint w = (inr res, w1)
    /\ res !! "latency" = Some JNull
    /\ res !! "bleu" = Some (JFloat 0)
    /\ res !! "answer" = Some (JStr "")
    /\ res !! "chunk_size" = Some (JInt cs)
    /\ forall results rest,
         for_each (tq :: rest) (step env cs) results w
         = for_each rest (step env cs)
             (results ++ [ <["question" := JStr (question tq)]> res ]) w2.
Proof.
  intros Hfail.
  destruct (evaluate_failed env (question tq) (expected tq) cs default_chunk_overlap
              default_endpoint w Hfail) as (w1 & Hev & _ & _).
  destruct (step_failed env cs tq w Hfail) as (w2 & Hstep & _ & _).
  exists (failure_result cs), w1, w2.
  split; [exact Hev|]. repeat split.
  intros results rest. simpl. unfold bind at 1. rewrite Hstep. reflexivity.
Qed.

Lemma failed_call_recorded_witness :
  call_failed (post Examples.down_env (length (posts initial)) default_endpoint
                 (payload (question Examples.first_query) 256 default_chunk_overlap))
  /\ exists res w1,
       evaluate Examples.down_env (question Examples.first_query)
         (expected Examples.first_query) 256 default_chunk_overlap
         default_endpoint initial = (inr res, w1)
       /\ res !! "latency" = Some JNull.
Proof.
  split; [exact I|].
  destruct (failed_call_recorded Examples.down_env 256 Examples.first_query
              initial I) as (res & w1 & w2 & Hev & Hl & _).
  exists res, w1. split; assumption.
Defined.

Lemma inner_loop_all_failed env cs :
  all_fail env ->
  forall queries results w, exists w',
    for_each queries (step env cs) results w
    = (inr (results
            ++ map (fun tq => <["question" := JStr (question tq)]> (failure_result cs))
                 queries), w')
    /\ files w' = files w.
Proof.
  intros Hall queries.
  induction queries as [|tq rest IH]; intros results w.
  - exists w. simpl. rewrite app_nil_r. split; reflexivity.
  - destruct (step_failed env cs tq w (Hall _ _ _)) as (w1 & Hstep & _ & Hfiles).
    destruct (IH (results ++ [ <["question" := JStr (question tq)]> (failure_result cs) ])
                w1) as (w2 & Hloop & Hfiles2).
    exists w2. simpl. unfold bind at 1. rewrite Hstep, Hloop.
    rewrite <- app_assoc. simpl. split; [reflexivity|congruence].
Qed.

Lemma outer_loop_all_failed env queries :
  all_fail env ->
  forall chunk_sizes results w, exists w',
    for_each chunk_sizes (pass env queries) results w
    = (inr (results ++ zero_rows chunk_sizes queries), w')
    /\ files w' = files w.
Proof.
  intros Hall chunk_sizes.
  induction chunk_sizes as [|cs rest IH]; intros results w.
  - exists w. simpl. rewrite app_nil_r. split; reflexivity.
  - simpl. unfold bind at 1. unfold pass at 1, bind at 1.
    destruct (logger INFO "Evaluating chunk_size=%d" [ArgInt cs] w)
      as [r w0] eqn:Hlog.
    assert (r = inr tt /\ files w0 = files w) as [-> Hf0].
    { unfold logger, modify in Hlog. injection Hlog as <- <-. split; reflexivity. }
    destruct (inner_loop_all_failed env cs Hall queries results w0)
      as (w1 & Hin & Hf1).
    rewrite Hin.
    destruct (IH (results
                  ++ map (fun tq => <["question" := JStr (question tq)]>
                                      (failure_result cs)) queries) w1)
      as (w2 & Hout & Hf2).
    exists w2. rewrite Hout. rewrite <- app_assoc.
    split; [reflexivity|]. rewrite Hf2, Hf1. exact Hf0.
Qed.

Lemma zero_rows_length chunk_sizes queries :
  length (zero_rows chunk_sizes queries) = (length chunk_sizes * length queries)%nat.
Proof.
  unfold zero_rows. induction chunk_sizes as [|cs rest IH]; simpl; [reflexivity|].
  rewrite length_app, length_map, IH. reflexivity.
Qed.

(** C5: when every request fails, the sweep ends without raising with one
    failure dict per (chunk_size, query) pair, in order, each tagged with its
    chunk_size and question; [run_evaluation] hands exactly these records to
    the file write and, the file being writable, returns with the file
    written. For the lists of [main] these are 6 records. *)
Theorem unreachable_service_run env :
  all_fail env ->
  (forall chunk_sizes queries w, exists w',
     sweep env chunk_sizes queries w = (inr (zero_rows chunk_sizes queries), w')
     /\ run_evaluation env chunk_sizes queries w
        = bind (write_json env (out_file env)
                  (JArr (map JObj (zero_rows chunk_sizes queries))))
            (fun _ => logger INFO "Saved evaluation results to %s"
                        [ArgStr (out_file env)]) w'
     /\ (can_open env (out_file env) = true ->
         exists w'',
           run_evaluation env chunk_sizes queries w = (inr tt, w'')
           /\ files w''
              = <[out_file env := JArr (map JObj (zero_rows chunk_sizes queries))]>
                  (files w)))
  /\ (forall chunk_sizes queries,
        length (zero_rows chunk_sizes queries)
        = (length chunk_sizes * length queries)%nat)
  /\ (forall w, can_open env (out_file env) = true ->
      exists rows w'',
        main env w = (inr tt, w'')
        /\ files w'' !! out_file env = Some (JArr (map JObj rows))
        /\ length rows = 6%nat
        /\ rows
           = map (fun '(cs, q) => <["question" := JStr q]> (failure_result cs))
               [ (256, "What is the candidate's experience with Python?");
                 (256, "Where is the candidate studying?");
                 (512, "What is the candidate's experience with Python?");
                 (512, "Where is the candidate studying?");
                 (1024, "What is the candidate's experience with Python?");
                 (1024, "Where is the candidate studying?") ]%Z).
Proof.
  intros Hall.
  assert (Hrun : forall chunk_sizes queries w, exists w',
     sweep env chunk_sizes queries w = (inr (zero_rows chunk_sizes queries), w')
     /\ run_evaluation env chunk_sizes queries w
        = bind (write_json env (out_file env)
                  (JArr (map JObj (zero_rows chunk_sizes queries))))
            (fun _ => logger INFO "Saved evaluation results to %s"
                        [ArgStr (out_file env)]) w'
     /\ (can_open env (out_file env) = true ->
         exists w'',
           run_evaluation env chunk_sizes queries w = (inr tt, w'')
           /\ files w''
              = <[out_file env := JArr (map JObj (zero_rows chunk_sizes queries))]>
                  (files w))).
  { intros chunk_sizes queries w.
    destruct (outer_loop_all_failed env queries Hall chunk_sizes [] w)
      as (w' & Hsweep & Hfiles).
    simpl in Hsweep. exists w'.
    assert (Hrun : run_evaluation env chunk_sizes queries w
        = bind (write_json env (out_file env)
                  (JArr (map JObj (zero_rows chunk_sizes queries))))
            (fun _ => logger INFO "Saved evaluation results to %s"
                        [ArgStr (out_file env)]) w').
    { unfold run_evaluation, bind at 1. unfold sweep. rewrite Hsweep. reflexivity. }
    split; [exact Hsweep|]. split; [exact Hrun|].
    intros Hopen. rewrite Hrun.
    unfold bind, write_json. rewrite Hopen. unfold logger, modify. simpl.
    eexists. split; [reflexivity|]. simpl. rewrite Hfiles. reflexivity. }
  split; [exact Hrun|]. split; [apply zero_rows_length|].
  intros w Hopen.
  destruct (Hrun [256; 512; 1024]%Z TEST_QUERIES w) as (w' & _ & _ & Hmain).
  destruct (Hmain Hopen) as (w'' & Hm & Hfiles).
  exists (zero_rows [256; 512; 1024]%Z TEST_QUERIES), w''.
  split; [exact Hm|]. split; [|split; reflexivity].
  rewrite Hfiles. apply lookup_insert_eq.
Qed.

Lemma unreachable_service_run_witness :
  all_fail Examples.down_env
  /\ exists w', main Examples.down_env initial = (inr tt, w')
       /\ exists rows, files w' !! out_file Examples.down_env = Some (JArr (map JObj rows))
            /\ length rows = 6%nat.
Proof.
  assert (Hall : all_fail Examples.down_env) by (intros n endpoint p; exact I).
  split; [exact Hall|].
  destruct (unreachable_service_run Examples.down_env Hall) as (_ & _ & Hmain).
  destruct (Hmain initial eq_refl) as (rows & w' & Hm & Hf & Hlen & _).
  exists w'. split; [exact Hm|]. exists rows. split; assumption.
Defined.

(** What [evaluate] does, by the way the request ends. *)
Lemma evaluate_cases env question expected cs co endpoint w :
  let out := evaluate env question expected cs co endpoint w in
  posts out.2 = posts w ++ [(endpoint, payload question cs co)]
  /\ files out.2 = files w
  /\ match post env (length (posts w)) endpoint (payload question cs co) with
     | Unreachable => out.1 = inr (failure_result cs)
     | Responded code p =>
         if ((400 <=? code) && (code <? 600))%Z then out.1 = inr (failure_result cs)
         else match p with
              | None => out.1 = inr (failure_result cs)
              | Some (JObj m) =>
                  match default (JStr "") (m !! "answer") with
                  | JStr s =>
                      match sentence_bleu env [split expected] (split s) with
                      | inl e => out.1 = inl e
                      | inr b =>
                          out.1 = inr {[ "chunk_size" := JInt cs;
                                         "latency" := default JNull (m !! "latency");
                                         "bleu" := JFloat b; "answer" := JStr s ]}
                      end
                  | _ => out.1 = inl (AttributeError "split")
                  end
              | Some _ => out.1 = inl (AttributeError "get")
              end
     end.
Proof.
  run. cases; repeat split.
Qed.

(** C3, as stated, fails: a request that succeeds (status 200, a JSON object)
    with no latency field in its body yields a dict whose latency is null. *)
Lemma null_latency_on_success :
  let o := post Examples.no_latency_env (length (posts initial)) default_endpoint
             (payload "Where is the candidate studying?" 512 default_chunk_overlap) in
  let out := evaluate Examples.no_latency_env "Where is the candidate studying?"
               "The candidate is pursuing an MS in Computer Science at San Jose State University."
               512 default_chunk_overlap default_endpoint initial in
  ~ call_failed o
  /\ exists res, out.1 = inr res
       /\ res !! "latency" = Some JNull
       /\ res !! "answer" = Some (JStr "San Jose").
Proof.
  split.
  - simpl. intros [H | H]; [lia | discriminate H].
  - eexists. split; [reflexivity|]. split; reflexivity.
Qed.

(** C3, amended: in a dict returned by [evaluate], the latency is null when
    the request failed; when it succeeded, the latency is the body's latency
    field, null when the body has none. So the latency is null exactly when
    the request failed or the body carries no latency (or a null one); a
    body sent by the query service always carries one. *)
Theorem latency_null_iff env question expected cs co endpoint w res w' :
  evaluate env question expected cs co endpoint w = (inr res, w') ->
  let o := post env (length (posts w)) endpoint (payload question cs co) in
  (call_failed o -> res !! "latency" = Some JNull)
  /\ (~ call_failed o ->
      exists code m, o = Responded code (Some (JObj m))
        /\ res !! "latency" = Some (default JNull (m !! "latency")))
  /\ (res !! "latency" = Some JNull <->
      call_failed o
      \/ exists code m, o = Responded code (Some (JObj m))
           /\ (m !! "latency" = None \/ m !! "latency" = Some JNull))
  /\ (forall r m, Service.response_json r = JObj m ->
        default JNull (m !! "latency") = JFloat (Service.latency r)).
Proof.
  intros Hev o.
  pose proof (evaluate_cases env question expected cs co endpoint w) as (_ & _ & Hc).
  rewrite Hev in Hc. simpl in Hc. fold o in Hc.
  assert (Hfail : call_failed o -> res !! "latency" = Some JNull).
  { intros Hf. destruct o as [|code p]; simpl in Hf.
    - injection Hc as ->. reflexivity.
    - destruct ((400 <=? code)%Z && (code <? 600)%Z) eqn:E.
      + injection Hc as ->. reflexivity.
      + destruct Hf as [Hf | ->]; [lia|]. injection Hc as ->. reflexivity. }
  assert (Hok : ~ call_failed o ->
      exists code m, o = Responded code (Some (JObj m))
        /\ res !! "latency" = Some (default JNull (m !! "latency"))).
  { intros Hnf. destruct o as [|code p]; simpl in Hnf; [tauto|].
    destruct ((400 <=? code)%Z && (code <? 600)%Z) eqn:E.
    { exfalso. apply Hnf. left. lia. }
    destruct p as [data|]; [|tauto].
    destruct data; try discriminate Hc.
    exists code, m. split; [reflexivity|].
    destruct (default (JStr "") (m !! "answer")); try discriminate Hc.
    destruct (sentence_bleu env _ _); [discriminate Hc|].
    injection Hc as ->. reflexivity. }
  split; [exact Hfail|]. split; [exact Hok|]. split.
  - split.
    + intros Hnull.
      assert (Hdec : call_failed o \/ ~ call_failed o).
      { destruct o as [|code p]; simpl; [tauto|].
        destruct p; [|tauto].
        destruct (decide (400 <= code < 600)%Z); [tauto|].
        right. intros [H | H]; [tauto|discriminate H]. }
      destruct Hdec as [Hf | Hnf]; [left; exact Hf|right].
      destruct (Hok Hnf) as (code & m & Ho & Hl).
      exists code, m. split; [exact Ho|].
      rewrite Hl in Hnull. destruct (m !! "latency"); simpl in Hnull.
      * right. congruence.
      * left. reflexivity.
    + intros [Hf | (code & m & Ho & Hm)]; [exact (Hfail Hf)|].
      assert (Hdec : call_failed o \/ ~ call_failed o).
      { rewrite Ho. simpl.
        destruct (decide (400 <= code < 600)%Z); [tauto|].
        right. intros [H | H]; [tauto|discriminate H]. }
      destruct Hdec as [Hf | Hnf]; [exact (Hfail Hf)|].
      destruct (Hok Hnf) as (code' & m' & Ho' & Hl).
      rewrite Ho in Ho'. injection Ho' as <- <-.
      rewrite Hl. destruct Hm as [-> | ->]; reflexivity.
  - intros r m Hr. injection Hr as <-. reflexivity.
Qed.

Lemma latency_null_iff_witness :
  exists res w',
    evaluate Examples.no_latency_env "Where is the candidate studying?"
      "San Jose" 512 default_chunk_overlap default_endpoint initial = (inr res, w')
    /\ (res !! "latency" = Some JNull <->
        call_failed (post Examples.no_latency_env 0 default_endpoint
                       (payload "Where is the candidate studying?" 512
                          default_chunk_overlap))
        \/ exists code m,
             post Examples.no_latency_env 0 default_endpoint
               (payload "Where is the candidate studying?" 512 default_chunk_overlap)
             = Responded code (Some (JObj m))
             /\ (m !! "latency" = None \/ m !! "latency" = Some JNull)).
Proof.
  eexists _, _. split; [reflexivity|].
  exact (proj1 (proj2 (proj2
    (latency_null_iff Examples.no_latency_env "Where is the candidate studying?"
       "San Jose" 512 default_chunk_overlap default_endpoint initial _ _ eq_refl)))).
Defined.

(** The inner loop body always sends exactly one request, whatever happens
    next. *)
Lemma step_posts env cs results tq w :
  posts (step env cs results tq w).2
  = posts w ++ [(default_endpoint, payload (question tq) cs default_chunk_overlap)].
Proof.
  pose proof (evaluate_cases env (question tq) (expected tq) cs default_chunk_overlap
                default_endpoint w) as (Hposts & _ & _).
  unfold step, bind at 1.
  destruct (evaluate env _ _ _ _ _ w) as [[e|res] w1]; simpl in *; [exact Hposts|].
  unfold bind, getitem, logger, modify, raise, ret.
  cases; exact Hposts.
Qed.

(** A loop whose body only sends requests satisfying [P] only sends such
    requests. *)
Lemma for_each_posts {X A : Type} (P : string * gmap string json -> Prop)
    (xs : list X) (body : A -> X -> M World A) :
  (forall x acc w, x ∈ xs ->
     exists new, posts (body acc x w).2 = posts w ++ new /\ Forall P new) ->
  forall acc w,
    exists new, posts (for_each xs body acc w).2 = posts w ++ new /\ Forall P new.
Proof.
  induction xs as [|x rest IH]; intros Hbody acc w.
  - exists []. simpl. rewrite app_nil_r. split; constructor.
  - simpl. unfold bind.
    destruct (Hbody x acc w ltac:(left)) as (new1 & Hp1 & HP1).
    destruct (body acc x w) as [[e|acc'] w1]; simpl in *.
    + exists new1. split; assumption.
    + destruct (IH (fun y acc0 w0 Hy => Hbody y acc0 w0 ltac:(right; exact Hy))
                  acc' w1) as (new2 & Hp2 & HP2).
      exists (new1 ++ new2). rewrite Hp2, Hp1, app_assoc.
      split; [reflexivity|]. apply Forall_app. split; assumption.
Qed.

Lemma sweep_posts env chunk_sizes queries w :
  exists new,
    posts (sweep env chunk_sizes queries w).2 = posts w ++ new
    /\ Forall (sent chunk_sizes queries) new.
Proof.
  unfold sweep. apply for_each_posts. intros cs acc w0 Hcs.
  unfold pass, bind at 1. unfold logger at 1, modify. simpl.
  match goal with
  | |- context [for_each queries (step env cs) acc ?w1] =>
      destruct (for_each_posts (sent chunk_sizes queries) queries (step env cs))
        with (acc := acc) (w := w1) as (new & Hp & HP)
  end.
  - intros tq acc1 w1 Htq. eexists. split; [apply step_posts|].
    constructor; [|constructor]. split; [reflexivity|].
    exists cs, tq. repeat split; assumption.
  - exists new. split; assumption.
Qed.

Lemma run_evaluation_posts env chunk_sizes queries w :
  exists new,
    posts (run_evaluation env chunk_sizes queries w).2 = posts w ++ new
    /\ Forall (sent chunk_sizes queries) new.
Proof.
  destruct (sweep_posts env chunk_sizes queries w) as (new & Hp & HP).
  exists new. split; [|exact HP].
  unfold run_evaluation, bind at 1.
  destruct (sweep env chunk_sizes queries w) as [[e|results] w1]; simpl in *;
    [exact Hp|].
  unfold bind, write_json, logger, modify, raise. cases; exact Hp.
Qed.

Lemma payload_fields question cs co :
  dom (payload question cs co) = ({[ "question"; "chunk_size"; "chunk_overlap" ]} : gset string)
  /\ payload question cs co !! "model" = None
  /\ payload question cs co !! "question" = Some (JStr question)
  /\ payload question cs co !! "chunk_size" = Some (JInt cs)
  /\ payload question cs co !! "chunk_overlap" = Some (JInt co).
Proof.
  split; [|repeat split].
  unfold payload. rewrite !dom_insert_L, ?dom_singleton_L, ?dom_empty_L. set_solver.
Qed.

Lemma default_model_used settings raw request :
  Service.raw_model raw = None ->
  Service.validate settings raw = inr request ->
  Service.model request = Service.OPENAI_MODEL_NAME settings.
Proof.
  intros Hm. unfold Service.validate. rewrite Hm. simpl.
  destruct (Service.validate_question _), (Service.validate_int 512 _ _ _),
    (Service.validate_int 50 _ _ _); intros H; try discriminate H.
  injection H as <-. reflexivity.
Qed.

(** The payload of the harness passes the validation of the service under
    the default settings, with the default model filled in. *)
Example harness_payload_validates :
  Service.parse_body (payload "Where is the candidate studying?" 256 50)
  = Some {| Service.raw_question := Some "Where is the candidate studying?";
            Service.raw_chunk_size := Some 256%Z;
            Service.raw_chunk_overlap := Some 50%Z;
            Service.raw_model := None |}
  /\ Service.validate (Service.default_settings "sk-test")
       {| Service.raw_question := Some "Where is the candidate studying?";
          Service.raw_chunk_size := Some 256%Z;
          Service.raw_chunk_overlap := Some 50%Z;
          Service.raw_model := None |}
     = inr {| Service.question := "Where is the candidate studying?";
              Service.chunk_size := 256; Service.chunk_overlap := 50;
              Service.model := Service.Gpt35Turbo |}.
Proof. split; reflexivity. Qed.

(** C9: every request [main] sends goes to the default endpoint with a
    payload whose fields are exactly question, chunk_size and chunk_overlap;
    there is no model field, so the service, once the body is validated,
    uses its configured default model and calls the library with that model;
    chunk_overlap is 50 and chunk_size is one of the three sizes of the
    sweep. *)
Theorem harness_payload_shape env w :
  exists new,
    posts (main env w).2 = posts w ++ new
    /\ forall endpoint p, (endpoint, p) ∈ new ->
         endpoint = default_endpoint
         /\ dom p = ({[ "question"; "chunk_size"; "chunk_overlap" ]} : gset string)
         /\ p !! "model" = None
         /\ p !! "chunk_overlap" = Some (JInt 50)
         /\ (exists cs, cs ∈ [256; 512; 1024]%Z /\ p !! "chunk_size" = Some (JInt cs))
         /\ (exists tq, tq ∈ TEST_QUERIES /\ p !! "question" = Some (JStr (question tq)))
         /\ exists raw,
              Service.parse_body p = Some raw
              /\ Service.raw_model raw = None
              /\ forall settings request,
                   Service.validate settings raw = inr request ->
                   Service.model request = Service.OPENAI_MODEL_NAME settings
                   /\ forall host lib sw m,
                        Service.CallOpenAI m
                          ∈ Service.calls
                              (Service.query_llm settings host lib request sw).2 ->
                        Service.CallOpenAI m ∈ Service.calls sw
                        \/ m = Service.OPENAI_MODEL_NAME settings.
Proof.
  destruct (run_evaluation_posts env [256; 512; 1024]%Z TEST_QUERIES w)
    as (new & Hp & HP).
  exists new. split; [exact Hp|].
  intros endpoint p Hin.
  rewrite Forall_forall in HP. destruct (HP _ Hin) as (Hep & cs & tq & Hcs & Htq & Hpay).
  simpl in Hep, Hpay. subst endpoint p.
  destruct (payload_fields (question tq) cs default_chunk_overlap)
    as (Hdom & Hmodel & Hq & Hsize & Hov).
  split; [reflexivity|]. split; [exact Hdom|]. split; [exact Hmodel|].
  split; [exact Hov|]. split; [eauto|]. split; [eauto|].
  eexists. split; [reflexivity|]. split; [reflexivity|].
  intros settings request Hval.
  assert (Hdm := Hval). apply default_model_used in Hdm; [|reflexivity].
  split; [exact Hdm|].
  intros host lib sw m.
  unfold Service.query_llm, bind, try_except, Service.logger, modify,
    Service.time_perf_counter, Service.call, Service.lift, raise, ret. simpl.
  cases; rewrite ?elem_of_app, ?elem_of_cons, ?elem_of_nil; intros Hc;
    repeat match goal with
           | H : _ \/ _ |- _ => destruct H
           end;
    try (left; assumption); try contradiction; try discriminate;
    right; match goal with H : Service.CallOpenAI _ = _ |- _ => injection H as -> end;
    exact Hdm.
Qed.

(** An exception raised by the body of a loop ends the loop. *)
Lemma for_each_raises {S X A : Type} (body : A -> X -> M S A) x rest acc s e s' :
  body acc x s = (inl e, s') ->
  for_each (x :: rest) body acc s = (inl e, s').
Proof.
  intros H. simpl. unfold bind. rewrite H. reflexivity.
Qed.

(** C10: when the [n]-th request succeeds with a JSON object whose "answer"
    is present and not a string, [evaluate] raises AttributeError at
    [answer.split()]; the exception leaves the inner loop at that pair, and
    when the pair is the first of a run the run ends with that exception,
    after this one request and with no file written. *)
Theorem non_string_answer_raises env n cs tq code m v :
  post env n default_endpoint (payload (question tq) cs default_chunk_overlap)
  = Responded code (Some (JObj m)) ->
  ~ (400 <= code < 600)%Z ->
  m !! "answer" = Some v ->
  (forall s, v <> JStr s) ->
  forall w, length (posts w) = n ->
    (evaluate env (question tq) (expected tq) cs default_chunk_overlap
       default_endpoint w).1 = inl (AttributeError "split")
    /\ (forall results rest,
          (for_each (tq :: rest) (step env cs) results w).1
          = inl (AttributeError "split"))
    /\ (forall chunk_sizes queries,
          let out := run_evaluation env (cs :: chunk_sizes) (tq :: queries) w in
          out.1 = inl (AttributeError "split")
          /\ posts out.2
             = posts w ++ [(default_endpoint,
                            payload (question tq) cs default_chunk_overlap)]
          /\ files out.2 = files w).
Proof.
  intros Hpost Hcode Hm Hv w Hn.
  assert (Hev : forall w0, length (posts w0) = n ->
            let out := evaluate env (question tq) (expected tq) cs
                         default_chunk_overlap default_endpoint w0 in
            out.1 = inl (AttributeError "split")
            /\ posts out.2 = posts w0 ++ [(default_endpoint,
                   payload (question tq) cs default_chunk_overlap)]
            /\ files out.2 = files w0).
  { intros w0 Hn0.
    pose proof (evaluate_cases env (question tq) (expected tq) cs
                  default_chunk_overlap default_endpoint w0) as (Hp & Hf & Hc).
    rewrite Hn0, Hpost in Hc.
    destruct ((400 <=? code)%Z && (code <? 600)%Z) eqn:E; [lia|].
    rewrite Hm in Hc. simpl in Hc.
    split; [|split; assumption].
    destruct v; try exact Hc. exfalso. exact (Hv s eq_refl). }
  assert (Hstep : forall results w0, length (posts w0) = n ->
            let out := step env cs results tq w0 in
            out.1 = inl (AttributeError "split")
            /\ posts out.2 = posts w0 ++ [(default_endpoint,
                   payload (question tq) cs default_chunk_overlap)]
            /\ files out.2 = files w0).
  { intros results w0 Hn0. destruct (Hev w0 Hn0) as (H1 & H2 & H3).
    assert (Hs : step env cs results tq w0
                 = (inl (AttributeError "split"),
                    (evaluate env (question tq) (expected tq) cs
                       default_chunk_overlap default_endpoint w0).2)).
    { unfold step, bind at 1.
      destruct (evaluate env _ _ _ _ _ w0) as [[e|res] w1]; simpl in *;
        [|discriminate H1].
      injection H1 as ->. reflexivity. }
    cbv zeta. rewrite Hs. simpl. repeat split; assumption. }
  split; [exact (proj1 (Hev w Hn))|]. split.
  - intros results rest. destruct (Hstep results w Hn) as (H1 & _).
    destruct (step env cs results tq w) as [r w1] eqn:Es. simpl in H1. subst r.
    rewrite (for_each_raises _ _ _ _ _ _ _ Es). reflexivity.
  - intros chunk_sizes queries.
    assert (Hpass : exists w1,
              pass env (tq :: queries) [] cs w = (inl (AttributeError "split"), w1)
              /\ posts w1 = posts w ++ [(default_endpoint,
                     payload (question tq) cs default_chunk_overlap)]
              /\ files w1 = files w).
    { unfold pass, bind at 1.
      destruct (logger INFO "Evaluating chunk_size=%d" [ArgInt cs] w)
        as [r w0] eqn:Hlog.
      unfold logger, modify in Hlog. injection Hlog as <- <-.
      match goal with
      | |- context [for_each _ _ _ ?w0] =>
          destruct (Hstep [] w0 Hn) as (H1 & H2 & H3);
          destruct (step env cs [] tq w0) as [r w1] eqn:Es
      end.
      simpl in H1, H2, H3. subst r. exists w1.
      rewrite (for_each_raises _ _ _ _ _ _ _ Es).
      split; [reflexivity|]. split; [exact H2|exact H3]. }
    destruct Hpass as (w1 & Hp & H2 & H3).
    assert (Hrun : run_evaluation env (cs :: chunk_sizes) (tq :: queries) w
                   = (inl (AttributeError "split"), w1)).
    { unfold run_evaluation, bind at 1. unfold sweep.
      rewrite (for_each_raises _ _ _ _ _ _ _ Hp). reflexivity. }
    cbv zeta. rewrite Hrun. simpl.
    split; [reflexivity|]. split; [exact H2|exact H3].
Qed.

Lemma non_string_answer_raises_witness :
  post Examples.bad_answer_env 0 default_endpoint
    (payload (question Examples.first_query) 256 default_chunk_overlap)
  = Responded 200 (Some (JObj {[ "answer" := JInt 7; "latency" := JFloat 1 ]}))
  /\ (main Examples.bad_answer_env initial).1 = inl (AttributeError "split")
  /\ files (main Examples.bad_answer_env initial).2 = ∅.
Proof.
  split; [reflexivity|].
  assert (Hcode : ~ (400 <= 200 < 600)%Z) by lia.
  assert (Hv : forall s, JInt 7 <> JStr s) by (intros s; discriminate).
  destruct (non_string_answer_raises Examples.bad_answer_env 0 256
              Examples.first_query 200
              {[ "answer" := JInt 7; "latency" := JFloat 1 ]} (JInt 7)
              eq_refl Hcode eq_refl Hv initial eq_refl) as (_ & _ & Hrun).
  destruct (Hrun [512; 1024]%Z (tl TEST_QUERIES)) as (H1 & _ & H3).
  split; [exact H1|exact H3].
Defined.

End HarnessFacts.

(** ** Facts about the scorer *)

Module BleuFacts.

Import Bleu.

Lemma sum_list_with_zero {A : Type} (u : list A) :
  sum_list_with (fun _ => 0%nat) u = 0%nat.
Proof. induction u as [|x u IH]; simpl; [reflexivity|exact IH]. Qed.

Lemma sum_list_with_ext {A : Type} (f h : A -> nat) (u : list A) :
  (forall x, f x = h x) -> sum_list_with f u = sum_list_with h u.
Proof.
  intros Hfh. induction u as [|x u IH]; simpl; [reflexivity|].
  rewrite Hfh. f_equal. exact IH.
Qed.

Lemma sum_list_with_plus {A : Type} (f h : A -> nat) (u : list A) :
  sum_list_with (fun x => (f x + h x)%nat) u
  = (sum_list_with f u + sum_list_with h u)%nat.
Proof. induction u as [|x u IH]; simpl; [reflexivity|rewrite IH; lia]. Qed.

(** In a list without duplicates an element is met once. *)
Lemma sum_indicator (x : list string) (u : list (list string)) :
  NoDup u -> x ∈ u ->
  sum_list_with (fun g => if decide (x = g) then 1%nat else 0%nat) u = 1%nat.
Proof.
  induction 1 as [|y u Hy Hnd IH]; intros Hin.
  - inversion Hin.
  - simpl. destruct (decide (x = y)) as [->|Hne].
    + assert (Hz : sum_list_with
                     (fun g => if decide (y = g) then 1%nat else 0%nat) u = 0%nat).
      { clear IH Hin Hnd. induction u as [|z u IHu]; simpl; [reflexivity|].
        destruct (decide (y = z)) as [->|_].
        - exfalso. apply Hy. left.
        - apply IHu. intros H. apply Hy. right. exact H. }
      rewrite Hz. reflexivity.
    + apply elem_of_cons in Hin as [Heq|Hin]; [contradiction|].
      rewrite (IH Hin). reflexivity.
Qed.

(** Summing the counts over the distinct n-grams gives the number of
    n-grams. *)
Lemma sum_count (gs u : list (list string)) :
  NoDup u -> (forall g, g ∈ gs -> g ∈ u) ->
  sum_list_with (fun g => count g gs) u = length gs.
Proof.
  intros Hnd. induction gs as [|x gs IH]; intros Hsub; simpl.
  - apply sum_list_with_zero.
  - rewrite sum_list_with_plus, IH.
    + rewrite (sum_indicator x u Hnd); [reflexivity|]. apply Hsub. left.
    + intros g Hg. apply Hsub. right. exact Hg.
Qed.

(** A text scored against itself: every n-gram precision is [c / c], with
    [c] the number of n-grams. *)
Lemma modified_precision_self (l : list string) (n : nat) :
  modified_precision [l] l n
  = (length (ngrams n l), Nat.max 1 (length (ngrams n l))).
Proof.
  unfold modified_precision. f_equal.
  transitivity (sum_list_with (fun g => count g (ngrams n l))
                  (remove_dups (ngrams n l))).
  - apply sum_list_with_ext. intros g. unfold max_count. simpl. lia.
  - apply sum_count.
    + apply NoDup_remove_dups.
    + intros g Hg. apply elem_of_remove_dups. exact Hg.
Qed.

Lemma ngrams_nonempty (n : nat) (l : list string) :
  (1 <= n <= length l)%nat -> (0 < length (ngrams n l))%nat.
Proof.
  intros [H1 Hn]. destruct l as [|t l]; simpl in *; [lia|].
  destruct n as [|n]; [lia|].
  simpl. destruct (n <=? length l)%nat eqn:E; simpl; [lia|].
  apply Nat.leb_gt in E. lia.
Qed.

Lemma brevity_penalty_same (len : nat) :
  (0 < len)%nat -> brevity_penalty len len = 1%R.
Proof.
  intros Hlen. unfold brevity_penalty.
  rewrite Nat.ltb_irrefl.
  destruct (len =? 0)%nat eqn:E; [apply Nat.eqb_eq in E; lia|].
  replace (1 - INR len / INR len)%R with 0%R; [apply exp_0|].
  field. apply not_0_INR. lia.
Qed.

(** A precision [c / c] is left alone by the smoothing and is 1. *)
Lemma method4_ones (k : R) (hyp_len incvnt : nat) (cs : list nat) :
  Forall (fun c => (0 < c)%nat) cs ->
  method4 k hyp_len incvnt (map (fun c => (c, Nat.max 1 c)) cs)
  = map (fun _ => 1%R) cs.
Proof.
  induction 1 as [|c cs Hc _ IH]; simpl; [reflexivity|].
  destruct (c =? 0)%nat eqn:E; [apply Nat.eqb_eq in E; lia|]. simpl.
  rewrite IH. f_equal.
  replace (Nat.max 1 c) with c by lia.
  field. apply not_0_INR. lia.
Qed.

Lemma log_sum_ones (w : R) (cs : list nat) :
  log_sum w (map (fun _ => 1%R) cs) = 0%R.
Proof.
  induction cs as [|c cs IH]; simpl; [reflexivity|].
  rewrite IH, ln_1. destruct (Rlt_dec 0 1); lra.
Qed.

(** A text of at least four tokens scores 1 against itself. *)
Lemma sentence_bleu_self (l : list string) :
  (4 <= length l)%nat -> sentence_bleu [l] l = inr 1%R.
Proof.
  intros Hlen. unfold sentence_bleu. simpl closest_ref_length.
  rewrite (modified_precision_self l 1).
  pose proof (ngrams_nonempty 1 l ltac:(lia)) as H1.
  pose proof (ngrams_nonempty 2 l ltac:(lia)) as H2.
  pose proof (ngrams_nonempty 3 l ltac:(lia)) as H3.
  pose proof (ngrams_nonempty 4 l ltac:(lia)) as H4.
  cbn [fst].
  destruct (length (ngrams 1 l) =? 0)%nat eqn:E; [apply Nat.eqb_eq in E; lia|].
  rewrite brevity_penalty_same by lia.
  cbn [map]. rewrite !modified_precision_self.
  change [(length (ngrams 1 l), Nat.max 1 (length (ngrams 1 l)));
          (length (ngrams 2 l), Nat.max 1 (length (ngrams 2 l)));
          (length (ngrams 3 l), Nat.max 1 (length (ngrams 3 l)));
          (length (ngrams 4 l), Nat.max 1 (length (ngrams 4 l)))]
    with (map (fun c => (c, Nat.max 1 c))
            [length (ngrams 1 l); length (ngrams 2 l);
             length (ngrams 3 l); length (ngrams 4 l)]).
  rewrite method4_ones by (repeat constructor; assumption).
  rewrite log_sum_ones, exp_0. f_equal. lra.
Qed.

Lemma ln_2_bounds : (0 < ln 2 < 1)%R.
Proof.
  split.
  - pose proof ln_lt_2. lra.
  - rewrite <- (ln_exp 1). apply ln_increasing; [lra|].
    pose proof (exp_ineq1 1 ltac:(lra)). lra.
Qed.

(** The score of the two-token text ["a b"] against itself: the missing
    3-grams and 4-grams are smoothed to [ln 2 / 10] and [ln 2 / 20]. *)
Lemma sentence_bleu_two_tokens :
  sentence_bleu [["a"; "b"]] ["a"; "b"]
  = inr (1 * exp (1 / 4 * ln 1 + (1 / 4 * ln 1
                  + (1 / 4 * ln (ln 2 / 10) + (1 / 4 * ln (ln 2 / 20) + 0)))))%R.
Proof.
  pose proof ln_2_bounds as [Hpos Hlt].
  unfold sentence_bleu. simpl closest_ref_length.
  change (modified_precision [["a"; "b"]] ["a"; "b"] 1) with (2%nat, 2%nat).
  cbn [fst Nat.eqb length].
  replace (brevity_penalty 2 2) with 1%R
    by (symmetry; apply brevity_penalty_same; lia).
  change (map (modified_precision [["a"; "b"]] ["a"; "b"]) [1; 2; 3; 4]%nat)
    with [(2, 2); (1, 1); (0, 1); (0, 1)]%nat.
  cbn [method4 Nat.eqb Nat.ltb Nat.leb andb log_sum].
  replace (INR 2) with 2%R by (simpl; lra).
  replace (INR 1) with 1%R by reflexivity.
  replace (2 / 2)%R with 1%R by field.
  replace (1 / 1)%R with 1%R by field.
  replace (1 / (2 ^ 1 * 5 / ln 2) / 1)%R with (ln 2 / 10)%R by (field; lra).
  replace (1 / (2 ^ 2 * 5 / ln 2) / 1)%R with (ln 2 / 20)%R by (field; lra).
  destruct (Rlt_dec 0 1) as [_|H]; [|lra].
  destruct (Rlt_dec 0 (ln 2 / 10)) as [_|H]; [|lra].
  destruct (Rlt_dec 0 (ln 2 / 20)) as [_|H]; [|lra].
  reflexivity.
Qed.

(** C6, as stated, fails: the empty text scores 0 against itself (no
    unigram matches), and the two-token text ["a b"] scores below 1 against
    itself (it has no 3-gram and no 4-gram, whose precisions are smoothed to
    values below 1). *)
Lemma short_text_self_score :
  score "" "" = inr 0%R
  /\ (0 <> 1)%R
  /\ exists x, score "a b" "a b" = inr x /\ (x < 1)%R.
Proof.
  split; [reflexivity|]. split; [lra|].
  eexists. split; [exact sentence_bleu_two_tokens|].
  pose proof ln_2_bounds as [Hpos Hlt].
  assert (H3 : (ln (ln 2 / 10) < 0)%R).
  { rewrite <- ln_1. apply ln_increasing; lra. }
  assert (H4 : (ln (ln 2 / 20) < 0)%R).
  { rewrite <- ln_1. apply ln_increasing; lra. }
  rewrite Rmult_1_l.
  apply Rlt_le_trans with (exp 0); [|rewrite exp_0; lra].
  apply exp_increasing. rewrite ln_1. lra.
Qed.

Lemma ngrams_length (n : nat) (l : list string) :
  (1 <= n)%nat -> length (ngrams n l) = (length l + 1 - n)%nat.
Proof.
  intros Hn. induction l as [|t l IH]; simpl; [lia|].
  destruct n as [|n]; [lia|]. simpl.
  destruct (n <=? length l)%nat eqn:E.
  - apply Nat.leb_le in E. simpl. rewrite IH. lia.
  - apply Nat.leb_gt in E. simpl. lia.
Qed.

Lemma ln_3_bounds : (0 < ln 3 < 3)%R.
Proof.
  split.
  - rewrite <- ln_1. apply ln_increasing; lra.
  - rewrite <- (ln_exp 3) at 2. apply ln_increasing; [lra|].
    pose proof (exp_ineq1 3 ltac:(lra)). lra.
Qed.

(** The precisions of a text scored against itself, by its number of
    tokens. *)
Lemma precisions_self (l : list string) :
  map (modified_precision [l] l) [1; 2; 3; 4]%nat
  = map (fun n => ((length l + 1 - n)%nat, Nat.max 1 (length l + 1 - n)))
      [1; 2; 3; 4]%nat.
Proof.
  cbn [map]. rewrite !modified_precision_self.
  rewrite !ngrams_length by lia. reflexivity.
Qed.

Lemma sentence_bleu_self_value (l : list string) :
  l <> [] ->
  sentence_bleu [l] l
  = inr (brevity_penalty (length l) (length l)
         * exp (log_sum (1 / 4)
                  (method4 5 (length l) 1
                     (map (fun n => ((length l + 1 - n)%nat,
                                     Nat.max 1 (length l + 1 - n)))
                        [1; 2; 3; 4]%nat))))%R.
Proof.
  intros Hl. unfold sentence_bleu. simpl closest_ref_length.
  rewrite precisions_self, (modified_precision_self l 1).
  rewrite ngrams_length by lia. cbn [fst].
  destruct (length l + 1 - 1 =? 0)%nat eqn:E; [|reflexivity].
  apply Nat.eqb_eq in E. destruct l; [contradiction|simpl in E; lia].
Qed.

(** A text of one token scores 1 against itself: its missing 2-grams,
    3-grams and 4-grams have precision 0, which is not smoothed for a
    one-token text and is left out of the sum. *)
Lemma sentence_bleu_self_one_token (l : list string) :
  length l = 1%nat -> sentence_bleu [l] l = inr 1%R.
Proof.
  intros Hl. rewrite sentence_bleu_self_value by (intros ->; discriminate Hl).
  rewrite Hl, brevity_penalty_same by lia.
  cbn [map Nat.add Nat.sub Nat.max method4 Nat.eqb Nat.ltb Nat.leb andb log_sum].
  replace (INR 1 / INR 1)%R with 1%R by (simpl; field).
  replace (INR 0 / INR 1)%R with 0%R by (simpl; field).
  rewrite ln_1.
  destruct (Rlt_dec 0 1) as [_|H]; [|lra].
  destruct (Rlt_dec 0 0) as [H|_]; [lra|].
  f_equal. replace (1 / 4 * 0 + (0 + (0 + (0 + 0))))%R with 0%R by lra.
  rewrite exp_0. lra.
Qed.

(** A text of two or of three tokens scores below 1 against itself: the
    n-grams it is too short for are smoothed to a precision below 1. *)
Lemma sentence_bleu_self_short (l : list string) :
  length l = 2%nat \/ length l = 3%nat ->
  exists x, sentence_bleu [l] l = inr x /\ (x < 1)%R.
Proof.
  intros Hl. pose proof ln_2_bounds as [H2 H2']. pose proof ln_3_bounds as [H3 H3'].
  rewrite sentence_bleu_self_value by (intros ->; destruct Hl; discriminate).
  eexists. split; [reflexivity|].
  assert (Hexp : forall s, (s < 0)%R -> (1 * exp s < 1)%R).
  { intros s Hs. rewrite Rmult_1_l.
    apply Rlt_le_trans with (exp 0); [apply exp_increasing; exact Hs|].
    rewrite exp_0. lra. }
  assert (Hln : forall p, (0 < p < 1)%R -> (ln p < 0)%R).
  { intros p Hp. rewrite <- ln_1. apply ln_increasing; lra. }
  destruct Hl as [Hl | Hl]; rewrite Hl, brevity_penalty_same by lia;
    cbn [map Nat.add Nat.sub Nat.max method4 Nat.eqb Nat.ltb Nat.leb andb log_sum];
    apply Hexp.
  - replace (INR 2) with 2%R by (simpl; lra).
    replace (INR 1) with 1%R by reflexivity.
    replace (2 / 2)%R with 1%R by field. replace (1 / 1)%R with 1%R by field.
    replace (1 / (2 ^ 1 * 5 / ln 2) / 1)%R with (ln 2 / 10)%R by (field; lra).
    replace (1 / (2 ^ 2 * 5 / ln 2) / 1)%R with (ln 2 / 20)%R by (field; lra).
    pose proof (Hln (ln 2 / 10)%R ltac:(lra)) as Hp3.
    pose proof (Hln (ln 2 / 20)%R ltac:(lra)) as Hp4.
    rewrite ln_1.
    destruct (Rlt_dec 0 1) as [_|H]; [|lra].
    destruct (Rlt_dec 0 (ln 2 / 10)) as [_|H]; [|lra].
    destruct (Rlt_dec 0 (ln 2 / 20)) as [_|H]; [|lra].
    lra.
  - replace (INR 3) with 3%R by (simpl; lra).
    replace (INR 2) with 2%R by (simpl; lra).
    replace (INR 1) with 1%R by reflexivity.
    replace (3 / 3)%R with 1%R by field. replace (2 / 2)%R with 1%R by field.
    replace (1 / 1)%R with 1%R by field.
    replace (1 / (2 ^ 1 * 5 / ln 3) / 1)%R with (ln 3 / 10)%R by (field; lra).
    pose proof (Hln (ln 3 / 10)%R ltac:(lra)) as Hp4.
    rewrite ln_1.
    destruct (Rlt_dec 0 1) as [_|H]; [|lra].
    destruct (Rlt_dec 0 (ln 3 / 10)) as [_|H]; [|lra].
    lra.
Qed.

(** C6, amended: a reference scores exactly 1 against itself exactly when
    it has one whitespace-separated token or at least four; the empty text
    scores 0 and a text of two or three tokens scores below 1. *)
Theorem self_score_is_one_iff (reference : string) :
  score reference reference = inr 1%R
  <-> length (split reference) = 1%nat \/ (4 <= length (split reference))%nat.
Proof.
  unfold score. split.
  - intros Hscore.
    destruct (length (split reference)) as [|[|[|[|n]]]] eqn:Hlen.
    + destruct (split reference); [|discriminate Hlen].
      change (sentence_bleu [[]] []) with (@inr exn R 0%R) in Hscore.
      injection Hscore as H. lra.
    + left. reflexivity.
    + destruct (sentence_bleu_self_short (split reference) (or_introl Hlen))
        as (x & Hx & Hlt).
      rewrite Hx in Hscore. injection Hscore as ->. lra.
    + destruct (sentence_bleu_self_short (split reference) (or_intror Hlen))
        as (x & Hx & Hlt).
      rewrite Hx in Hscore. injection Hscore as ->. lra.
    + right. lia.
  - intros [Hone | Hfour].
    + apply sentence_bleu_self_one_token. exact Hone.
    + apply sentence_bleu_self. exact Hfour.
Qed.

Lemma self_score_is_one_iff_witness :
  (4 <= length (split "The candidate is pursuing an MS in Computer Science at San Jose State University."))%nat
  /\ score "The candidate is pursuing an MS in Computer Science at San Jose State University."
       "The candidate is pursuing an MS in Computer Science at San Jose State University."
     = inr 1%R.
Proof.
  assert (H : (4 <= length (split "The candidate is pursuing an MS in Computer Science at San Jose State University."))%nat).
  { vm_compute. lia. }
  split; [exact H|]. exact (proj2 (self_score_is_one_iff _) (or_intror H)).
Defined.

(** C7: whatever the reference, an answer with no token scores exactly 0,
    and the scorer does not raise; so when a successful response carries no
    answer, or the empty answer, [evaluate] returns a dict with bleu 0.0 and
    answer "". *)
Theorem empty_answer_scores_zero env question expected cs co endpoint w code m :
  Harness.post (with_nltk env) (length (Harness.posts w)) endpoint
    (Harness.payload question cs co)
  = Harness.Responded code (Some (JObj m)) ->
  ~ (400 <= code < 600)%Z ->
  m !! "answer" = None \/ m !! "answer" = Some (JStr "") ->
  (forall reference, score reference "" = inr 0%R)
  /\ (Harness.evaluate (with_nltk env) question expected cs co endpoint w).1
     = inr {[ "chunk_size" := JInt cs; "latency" := default JNull (m !! "latency");
              "bleu" := JFloat 0; "answer" := JStr "" ]}.
Proof.
  intros Hpost Hcode Hm.
  assert (Hscore : forall reference, score reference "" = inr 0%R).
  { intros reference. reflexivity. }
  split; [exact Hscore|].
  pose proof (HarnessFacts.evaluate_cases (with_nltk env) question expected cs co
                endpoint w) as (_ & _ & Hc).
  rewrite Hpost in Hc.
  destruct ((400 <=? code)%Z && (code <? 600)%Z) eqn:E; [lia|].
  assert (Hans : default (JStr "") (m !! "answer") = JStr "").
  { destruct Hm as [-> | ->]; reflexivity. }
  rewrite Hans in Hc.
  change (Harness.sentence_bleu (with_nltk env) [split expected] (split ""))
    with (score expected "") in Hc.
  rewrite Hscore in Hc. exact Hc.
Qed.

Lemma empty_answer_scores_zero_witness :
  exists res,
    (Harness.evaluate Examples.no_answer_env "Where is the candidate studying?"
       "The candidate is pursuing an MS in Computer Science at San Jose State University."
       512 50 Harness.default_endpoint Harness.initial).1 = inr res
    /\ res !! "bleu" = Some (JFloat 0)
    /\ res !! "answer" = Some (JStr "").
Proof.
  eexists. split.
  - exact (proj2 (empty_answer_scores_zero
                    (Examples.always
                       (Harness.Responded 200 (Some (JObj {[ "latency" := JFloat 1 ]})))
                       (inr 0%R))
                    "Where is the candidate studying?"
                    "The candidate is pursuing an MS in Computer Science at San Jose State University."
                    512 50 Harness.default_endpoint Harness.initial 200
                    {[ "latency" := JFloat 1 ]} eq_refl ltac:(lia)
                    (or_introl eq_refl))).
  - split; reflexivity.
Defined.

End BleuFacts.

(** ** Validation of the request body *)

Module ValidationFacts.

Import Service.

Lemma validate_question_inr v s :
  validate_question v = inr s <-> v = Some s /\ s <> "".
Proof.
  unfold validate_question. destruct v as [[|c t]|]; simpl; split.
  - discriminate.
  - intros [H Hne]. injection H as <-. contradiction.
  - intros H. injection H as <-. split; [reflexivity|discriminate].
  - intros [H _]. injection H as <-. reflexivity.
  - discriminate.
  - intros [H _]. discriminate H.
Qed.

Lemma validate_int_inr d lo hi v z :
  validate_int d lo hi v = inr z
  <-> (v = None /\ z = d) \/ (v = Some z /\ (lo <= z <= hi)%Z).
Proof.
  unfold validate_int. destruct v as [x|].
  - destruct (x <? lo)%Z eqn:E1; [|destruct (hi <? x)%Z eqn:E2]; split.
    + discriminate.
    + intros [[H _] | [H Hb]]; [discriminate H|]. injection H as ->. lia.
    + discriminate.
    + intros [[H _] | [H Hb]]; [discriminate H|]. injection H as ->. lia.
    + intros H. injection H as ->. right. split; [reflexivity|lia].
    + intros [[H _] | [H Hb]]; [discriminate H|]. injection H as ->. reflexivity.
  - split.
    + intros H. injection H as <-. left. split; reflexivity.
    + intros [[_ ->] | [H _]]; [reflexivity|discriminate H].
Qed.

Lemma model_of_name_Some s m : model_of_name s = Some m <-> s = model_name m.
Proof.
  split.
  - unfold model_of_name.
    destruct (decide (s = "gpt-3.5-turbo")) as [->|_].
    { intros E. injection E as <-. reflexivity. }
    destruct (decide (s = "gpt-4")) as [->|_]; [|discriminate].
    intros E. injection E as <-. reflexivity.
  - intros ->. apply ServiceFacts.model_of_name_model_name.
Qed.

Lemma validate_model_inr d v m :
  validate_model d v = inr m
  <-> (v = None /\ m = d) \/ v = Some (model_name m).
Proof.
  unfold validate_model. destruct v as [s|].
  - destruct (model_of_name s) as [m'|] eqn:E.
    + apply model_of_name_Some in E. subst s. split.
      * intros H. injection H as <-. right. reflexivity.
      * intros [[H _] | H]; [discriminate H|]. injection H as H.
        destruct m, m'; simpl in H; try discriminate H; reflexivity.
    + split; [discriminate|]. intros [[H _] | H]; [discriminate H|].
      injection H as ->. rewrite ServiceFacts.model_of_name_model_name in E.
      discriminate E.
  - split.
    + intros H. injection H as <-. left. split; reflexivity.
    + intros [[_ ->] | H]; [reflexivity|discriminate H].
Qed.

(** [validate] succeeds exactly when its four field checks do. *)
Lemma validate_inr settings raw request :
  validate settings raw = inr request
  <-> validate_question (raw_question raw) = inr (question request)
      /\ validate_int 512 1 (MAX_CHUNK_SIZE settings) (raw_chunk_size raw)
         = inr (chunk_size request)
      /\ validate_int 50 0 (MAX_CHUNK_OVERLAP settings) (raw_chunk_overlap raw)
         = inr (chunk_overlap request)
      /\ validate_model (OPENAI_MODEL_NAME settings) (raw_model raw)
         = inr (model request).
Proof.
  unfold validate.
  destruct (validate_question _), (validate_int 512 _ _ _), (validate_int 50 _ _ _),
    (validate_model _ _); simpl; split;
    try discriminate;
    try (intros (H1 & H2 & H3 & H4); discriminate).
  - intros H. injection H as <-. simpl. repeat split.
  - intros (H1 & H2 & H3 & H4). destruct request. simpl in *. congruence.
Qed.

Lemma accepted_is_valid settings raw request :
  validate settings raw = inr request -> valid_request settings raw.
Proof.
  intros H. apply validate_inr in H as (Hq & Hcs & Hco & Hm).
  apply validate_question_inr in Hq as [Hq Hne].
  apply validate_int_inr in Hcs. apply validate_int_inr in Hco.
  apply validate_model_inr in Hm.
  split; [eauto|]. split; [|split].
  - intros cs E. destruct Hcs as [[H _] | [H Hb]]; congruence.
  - intros co E. destruct Hco as [[H _] | [H Hb]]; congruence.
  - intros m E. destruct Hm as [[H _] | H]; [congruence|].
    rewrite H in E. injection E as <-. destruct (model request); simpl; auto.
Qed.

(** The body is accepted exactly when the request is valid: a question that
    is given and not empty, and each of chunk_size, chunk_overlap and model
    either left out or within its bounds. *)
Theorem accepted_iff_valid settings raw :
  (exists request, validate settings raw = inr request)
  <-> valid_request settings raw.
Proof.
  split; [|apply ServiceFacts.validate_valid].
  intros [request H]. exact (accepted_is_valid settings raw request H).
Qed.

Lemma validate_inl_errors settings raw errors :
  validate settings raw = inl errors ->
  errors
  = field_errors "question" (validate_question (raw_question raw))
    ++ field_errors "chunk_size"
         (validate_int 512 1 (MAX_CHUNK_SIZE settings) (raw_chunk_size raw))
    ++ field_errors "chunk_overlap"
         (validate_int 50 0 (MAX_CHUNK_OVERLAP settings) (raw_chunk_overlap raw))
    ++ field_errors "model" (validate_model (OPENAI_MODEL_NAME settings) (raw_model raw))
  /\ errors <> [].
Proof.
  unfold validate.
  destruct (validate_question _), (validate_int 512 _ _ _), (validate_int 50 _ _ _),
    (validate_model _ _); simpl; intros H; try discriminate H;
    injection H as <-; split; try reflexivity; discriminate.
Qed.

(** The reply is 422 exactly when the request is not valid; the handler is
    then not entered: the world is as it was, and the body lists at least one
    field error. *)
Theorem rejected_iff_invalid settings host lib raw w :
  let out := post_query settings host lib raw w in
  (status out.1 = 422%Z <-> ~ valid_request settings raw)
  /\ (status out.1 = 422%Z ->
      out.2 = w
      /\ exists errors, body out.1 = ValidationBody errors /\ errors <> []).
Proof.
  unfold post_query.
  destruct (validate settings raw) as [errors|request] eqn:Ev.
  - apply validate_inl_errors in Ev as Herr. destruct Herr as [_ Hne]. simpl.
    split.
    + split; [|reflexivity]. intros _ Hvalid.
      apply ServiceFacts.validate_valid in Hvalid as [request Hreq]. congruence.
    + intros _. split; [reflexivity|]. exists errors. split; [reflexivity|exact Hne].
  - pose proof (ServiceFacts.query_llm_outcome settings host lib request w) as Hout.
    assert (Hvalid : valid_request settings raw)
      by (eapply accepted_is_valid; eauto).
    destruct (query_llm settings host lib request w) as [[e|r] w']; simpl.
    + destruct Hout as [detail ->]. simpl. split; [|discriminate].
      split; [discriminate|]. intros H. contradiction.
    + split; [|discriminate]. split; [discriminate|]. intros H. contradiction.
Qed.

Lemma in_field_errors {A : Type} name name' k (r : ErrorKind + A) :
  (name, k) ∈ field_errors name' r <-> name = name' /\ r = inl k.
Proof.
  destruct r as [k'|a]; simpl.
  - rewrite list_elem_of_singleton. split.
    + intros H. injection H as -> ->. split; reflexivity.
    + intros [-> H]. injection H as ->. reflexivity.
  - rewrite elem_of_nil. split; [contradiction|]. intros [_ H]. discriminate H.
Qed.

Lemma validate_int_inl d lo hi v :
  (validate_int d lo hi v = inl NotGe <-> exists z, v = Some z /\ (z < lo)%Z)
  /\ (validate_int d lo hi v = inl NotLe
      <-> exists z, v = Some z /\ (lo <= z)%Z /\ (hi < z)%Z).
Proof.
  unfold validate_int. destruct v as [x|].
  - destruct (x <? lo)%Z eqn:E1; [|destruct (hi <? x)%Z eqn:E2].
    + split; split.
      * intros _. exists x. split; [reflexivity|lia].
      * reflexivity.
      * discriminate.
      * intros (z & H & Hz1 & Hz2). injection H as <-. lia.
    + split; split.
      * discriminate.
      * intros (z & H & Hz). injection H as <-. lia.
      * intros _. exists x. split; [reflexivity|lia].
      * reflexivity.
    + split; split.
      * discriminate.
      * intros (z & H & Hz). injection H as <-. lia.
      * discriminate.
      * intros (z & H & Hz1 & Hz2). injection H as <-. lia.
  - split; split; try discriminate; intros (z & H & _); discriminate H.
Qed.

(** The error report names the fields that fail, each with the check it
    fails: a question that is missing or empty, a chunk_size or chunk_overlap
    below its lower bound or, otherwise, above its upper bound, a model
    outside the two names. *)
Theorem error_report settings raw errors :
  validate settings raw = inl errors ->
  (("question", Missing) ∈ errors <-> raw_question raw = None)
  /\ (("question", MinLength) ∈ errors <-> raw_question raw = Some "")
  /\ (("chunk_size", NotGe) ∈ errors
      <-> exists cs, raw_chunk_size raw = Some cs /\ (cs < 1)%Z)
  /\ (("chunk_size", NotLe) ∈ errors
      <-> exists cs, raw_chunk_size raw = Some cs /\ (1 <= cs)%Z
                     /\ (MAX_CHUNK_SIZE settings < cs)%Z)
  /\ (("chunk_overlap", NotGe) ∈ errors
      <-> exists co, raw_chunk_overlap raw = Some co /\ (co < 0)%Z)
  /\ (("chunk_overlap", NotLe) ∈ errors
      <-> exists co, raw_chunk_overlap raw = Some co /\ (0 <= co)%Z
                     /\ (MAX_CHUNK_OVERLAP settings < co)%Z)
  /\ (("model", NotInLiteral) ∈ errors
      <-> exists m, raw_model raw = Some m /\ m <> "gpt-3.5-turbo" /\ m <> "gpt-4").
Proof.
  intros H. apply validate_inl_errors in H as [-> _].
  assert (Hin : forall name k,
            (name, k) ∈ field_errors "question" (validate_question (raw_question raw))
              ++ field_errors "chunk_size"
                   (validate_int 512 1 (MAX_CHUNK_SIZE settings) (raw_chunk_size raw))
              ++ field_errors "chunk_overlap"
                   (validate_int 50 0 (MAX_CHUNK_OVERLAP settings) (raw_chunk_overlap raw))
              ++ field_errors "model"
                   (validate_model (OPENAI_MODEL_NAME settings) (raw_model raw))
            <-> (name = "question" /\ validate_question (raw_question raw) = inl k)
                \/ (name = "chunk_size"
                    /\ validate_int 512 1 (MAX_CHUNK_SIZE settings) (raw_chunk_size raw)
                       = inl k)
                \/ (name = "chunk_overlap"
                    /\ validate_int 50 0 (MAX_CHUNK_OVERLAP settings)
                         (raw_chunk_overlap raw) = inl k)
                \/ (name = "model"
                    /\ validate_model (OPENAI_MODEL_NAME settings) (raw_model raw)
                       = inl k)).
  { intros name k. rewrite !elem_of_app, !in_field_errors. tauto. }
  pose proof (validate_int_inl 512 1 (MAX_CHUNK_SIZE settings) (raw_chunk_size raw))
    as [Hcs1 Hcs2].
  pose proof (validate_int_inl 50 0 (MAX_CHUNK_OVERLAP settings) (raw_chunk_overlap raw))
    as [Hco1 Hco2].
  repeat split; try (intros Hx; apply Hin in Hx);
    try (intros Hx; apply Hin).
  - destruct Hx as [[_ Hq] | [[E _] | [[E _] | [E _]]]]; try discriminate E.
    unfold validate_question in Hq.
    destruct (raw_question raw) as [[|c t]|]; [discriminate|discriminate|reflexivity].
  - left. split; [reflexivity|]. rewrite Hx. reflexivity.
  - destruct Hx as [[_ Hq] | [[E _] | [[E _] | [E _]]]]; try discriminate E.
    unfold validate_question in Hq.
    destruct (raw_question raw) as [[|c t]|]; [reflexivity|discriminate|discriminate].
  - left. split; [reflexivity|]. rewrite Hx. reflexivity.
  - destruct Hx as [[E _] | [[_ Hx] | [[E _] | [E _]]]]; try discriminate E.
    apply Hcs1. exact Hx.
  - right. left. split; [reflexivity|]. apply Hcs1. exact Hx.
  - destruct Hx as [[E _] | [[_ Hx] | [[E _] | [E _]]]]; try discriminate E.
    apply Hcs2. exact Hx.
  - right. left. split; [reflexivity|]. apply Hcs2. exact Hx.
  - destruct Hx as [[E _] | [[E _] | [[_ Hx] | [E _]]]]; try discriminate E.
    apply Hco1. exact Hx.
  - right. right. left. split; [reflexivity|]. apply Hco1. exact Hx.
  - destruct Hx as [[E _] | [[E _] | [[_ Hx] | [E _]]]]; try discriminate E.
    apply Hco2. exact Hx.
  - right. right. left. split; [reflexivity|]. apply Hco2. exact Hx.
  - destruct Hx as [[E _] | [[E _] | [[E _] | [_ Hx]]]]; try discriminate E.
    unfold validate_model in Hx. destruct (raw_model raw) as [m|]; [|discriminate].
    exists m. split; [reflexivity|].
    unfold model_of_name in Hx.
    destruct (decide (m = "gpt-3.5-turbo")); [discriminate|].
    destruct (decide (m = "gpt-4")); [discriminate|]. split; assumption.
  - right. right. right. split; [reflexivity|].
    destruct Hx as (m & -> & Hn1 & Hn2). unfold validate_model, model_of_name.
    destruct (decide (m = "gpt-3.5-turbo")); [contradiction|].
    destruct (decide (m = "gpt-4")); [contradiction|]. reflexivity.
Qed.

Lemma error_report_witness :
  validate Examples.settings Scenarios.raw_bad_model = inl [("model", NotInLiteral)]
  /\ exists m, raw_model Scenarios.raw_bad_model = Some m
       /\ m <> "gpt-3.5-turbo" /\ m <> "gpt-4".
Proof.
  split; [reflexivity|].
  apply (proj2 (proj2 (proj2 (proj2 (proj2 (proj2
           (error_report Examples.settings Scenarios.raw_bad_model
              [("model", NotInLiteral)] eq_refl))))))).
  left.
Defined.

(** The bounds are not applied to the default: under settings whose
    MAX_CHUNK_SIZE is below 512, a body that gives chunk_size 512 is
    rejected, and the same body without chunk_size is accepted with
    chunk_size 512. *)
Theorem default_chunk_size_unchecked settings q :
  q <> "" ->
  (MAX_CHUNK_SIZE settings < 512)%Z ->
  (exists errors,
     validate settings {| raw_question := Some q; raw_chunk_size := Some 512%Z;
                          raw_chunk_overlap := None; raw_model := None |}
     = inl errors /\ ("chunk_size", NotLe) ∈ errors)
  /\ validate settings {| raw_question := Some q; raw_chunk_size := None;
                          raw_chunk_overlap := None; raw_model := None |}
     = inr {| question := q; chunk_size := 512; chunk_overlap := 50;
              model := OPENAI_MODEL_NAME settings |}.
Proof.
  intros Hq Hmax. split.
  - unfold validate. simpl.
    destruct (MAX_CHUNK_SIZE settings <? 512)%Z eqn:E; [|lia].
    destruct q as [|c t]; [contradiction|]. simpl.
    eexists. split; [reflexivity|]. left.
  - unfold validate. simpl. destruct q as [|c t]; [contradiction|]. reflexivity.
Qed.

Lemma default_chunk_size_unchecked_witness :
  (MAX_CHUNK_SIZE Scenarios.small_settings < 512)%Z
  /\ validate Scenarios.small_settings Scenarios.raw_question_only
     = inr {| question := "Where is the candidate studying?"; chunk_size := 512;
              chunk_overlap := 50; model := Gpt4 |}.
Proof.
  split; [reflexivity|].
  exact (proj2 (default_chunk_size_unchecked Scenarios.small_settings
                  "Where is the candidate studying?"
                  ltac:(discriminate) eq_refl)).
Defined.

End ValidationFacts.

(** ** The handler and the calls it makes *)

Module HandlerFacts.

Import Service.

Ltac run :=
  unfold query_llm, bind, try_except, logger, modify, time_perf_counter, call,
    lift, raise, ret; simpl.

(** A request for which the directory exists and every library call
    succeeds: the answer is the text of the library's result, the latency
    the difference of the two clock readings; the six calls are made once
    each, in order, with the model, chunk size, chunk overlap and question of
    the request, and two INFO records are logged. *)
Theorem request_goes_through settings host lib request w docs llm ctx idx eng res s :
  isdir (path_kind host (DOCUMENT_DIR settings)) = true ->
  load_data lib (DOCUMENT_DIR settings) = inr docs ->
  OpenAI lib (model request) = inr llm ->
  from_defaults lib llm (chunk_size request) (chunk_overlap request) = inr ctx ->
  from_documents lib docs ctx = inr idx ->
  as_query_engine lib idx = inr eng ->
  query lib eng (question request) = inr res ->
  str lib res = inr s ->
  let latency := (perf_counter host (S (clock_reads w))
                  - perf_counter host (clock_reads w))%R in
  query_llm settings host lib request w
  = (inr {| answer := s; latency := latency |},
     {| clock_reads := S (S (clock_reads w));
        calls := calls w ++ Traces.pipeline_calls settings request;
        log := log w ++ [Traces.incoming request; Traces.answered latency] |}).
Proof.
  intros Hdir Hload Hllm Hctx Hidx Heng Hres Hstr. run.
  rewrite Hdir. simpl. rewrite Hload, Hllm. simpl. rewrite Hctx. simpl.
  rewrite Hidx. simpl. rewrite Heng. simpl. rewrite Hres. simpl. rewrite Hstr.
  simpl. unfold Traces.pipeline_calls, Traces.incoming, Traces.answered.
  rewrite <- !app_assoc. reflexivity.
Qed.

Lemma request_goes_through_witness :
  exists w',
    query_llm Examples.settings (Examples.host_with (Directory true))
      Examples.echo_lib Examples.request_python initial
    = (inr {| answer := "42"; latency := (INR 1 - INR 0)%R |}, w')
    /\ calls w' = Traces.pipeline_calls Examples.settings Examples.request_python.
Proof.
  eexists. split.
  - exact (request_goes_through Examples.settings (Examples.host_with (Directory true))
             Examples.echo_lib Examples.request_python initial tt tt tt tt tt tt "42"
             eq_refl eq_refl eq_refl eq_refl eq_refl eq_refl eq_refl eq_refl).
  - reflexivity.
Defined.

(** When the document load raises, whatever it raises, the handler raises
    status 500 with "Could not read documents"; the load is the only call
    made: the model is not set up and no index is built. *)
Theorem load_failure settings host lib request w e :
  isdir (path_kind host (DOCUMENT_DIR settings)) = true ->
  load_data lib (DOCUMENT_DIR settings) = inl e ->
  let out := query_llm settings host lib request w in
  out.1 = inl (HTTPException 500 "Could not read documents")
  /\ calls out.2 = calls w ++ [CallLoadData (DOCUMENT_DIR settings)]
  /\ clock_reads out.2 = S (clock_reads w).
Proof.
  intros Hdir Hload. run. rewrite Hdir. simpl. rewrite Hload. simpl.
  repeat split.
Qed.

Lemma load_failure_witness :
  (query_llm Examples.settings (Examples.host_with (Directory true))
     Examples.denied_lib Examples.request_python initial).1
  = inl (HTTPException 500 "Could not read documents").
Proof.
  exact (proj1 (load_failure Examples.settings (Examples.host_with (Directory true))
                  Examples.denied_lib Examples.request_python initial
                  (OSError "Permission denied") eq_refl eq_refl)).
Defined.

(** Once the documents are loaded, any exception of the later steps (model
    set-up, service context, index build, query engine, query, conversion of
    the result to text) becomes status 500 with "Failed to generate answer";
    at least the load and the model set-up were called, and the calls made
    are an initial part of the six. *)
Theorem pipeline_failure settings host lib request w docs e :
  isdir (path_kind host (DOCUMENT_DIR settings)) = true ->
  load_data lib (DOCUMENT_DIR settings) = inr docs ->
  (query_llm settings host lib request w).1 = inl e ->
  e = HTTPException 500 "Failed to generate answer"
  /\ exists k, (2 <= k <= 6)%nat
       /\ calls (query_llm settings host lib request w).2
          = calls w ++ take k (Traces.pipeline_calls settings request).
Proof.
  intros Hdir Hload. run. rewrite Hdir. simpl. rewrite Hload. simpl.
  unfold Traces.pipeline_calls.
  cases; intros H; try discriminate H; injection H as <-;
    (split; [reflexivity|]); rewrite <- ?app_assoc; simpl.
  all: first [ exists 2%nat; split; [lia|reflexivity]
             | exists 3%nat; split; [lia|reflexivity]
             | exists 4%nat; split; [lia|reflexivity]
             | exists 5%nat; split; [lia|reflexivity]
             | exists 6%nat; split; [lia|reflexivity] ].
Qed.

Lemma pipeline_failure_witness :
  (query_llm Examples.settings (Examples.host_with (Directory true))
     Scenarios.no_index_lib Examples.request_python initial).1
  = inl (HTTPException 500 "Failed to generate answer").
Proof.
  destruct (query_llm Examples.settings (Examples.host_with (Directory true))
              Scenarios.no_index_lib Examples.request_python initial).1
    as [e|r] eqn:E; [|discriminate E].
  destruct (pipeline_failure Examples.settings (Examples.host_with (Directory true))
              Scenarios.no_index_lib Examples.request_python initial tt e
              eq_refl eq_refl E) as [-> _].
  reflexivity.
Defined.

Lemma calls_prefix settings host lib request w :
  exists k,
    calls (query_llm settings host lib request w).2
    = calls w ++ take k (Traces.pipeline_calls settings request)
    /\ (forall r, (query_llm settings host lib request w).1 = inr r -> k = 6%nat).
Proof.
  run. unfold Traces.pipeline_calls.
  cases; rewrite <- ?app_assoc; simpl;
    first [ exists 0%nat; split; [symmetry; apply app_nil_r|discriminate]
          | exists 1%nat; split; [reflexivity|discriminate]
          | exists 2%nat; split; [reflexivity|discriminate]
          | exists 3%nat; split; [reflexivity|discriminate]
          | exists 4%nat; split; [reflexivity|discriminate]
          | exists 5%nat; split; [reflexivity|discriminate]
          | exists 6%nat; split; [reflexivity|discriminate]
          | exists 6%nat; split; [reflexivity|reflexivity] ].
Qed.

(** Whatever the request and the library do, the calls of one request are
    an initial part of the six calls of [pipeline_calls], in that order: a
    step is called only after every earlier step returned. All six were
    made when a response is returned. *)
Theorem calls_in_order settings host lib request w :
  let out := query_llm settings host lib request w in
  exists k,
    calls out.2 = calls w ++ take k (Traces.pipeline_calls settings request)
    /\ (forall r, out.1 = inr r -> k = 6%nat).
Proof.
  intros out. destruct (calls_prefix settings host lib request w) as (k & Hc & Hk).
  exists k. split; [exact Hc|exact Hk].
Qed.

(** Every request logs the incoming question first and then exactly one
    more record: the INFO record with the latency when a response is
    returned, an ERROR record when the handler raises. *)
Theorem one_record_per_outcome settings host lib request w :
  let out := query_llm settings host lib request w in
  exists rest,
    log out.2 = log w ++ Traces.incoming request :: rest
    /\ match out.1 with
       | inr r => rest = [Traces.answered (latency r)]
       | inl _ => exists m a, rest = [ {| levelname := ERROR; msg := m; args := a |} ]
       end.
Proof.
  run. unfold Traces.incoming, Traces.answered.
  cases; rewrite <- ?app_assoc; simpl; eexists; (split; [reflexivity|]); eauto.
Qed.

Lemma query_llm_error_detail settings host lib request w e :
  (query_llm settings host lib request w).1 = inl e ->
  exists detail, e = HTTPException 500 detail /\ detail ∈ Traces.error_details.
Proof.
  run. unfold Traces.error_details.
  cases; intros H; try discriminate H; injection H as <-;
    eexists; (split; [reflexivity|]); set_solver.
Qed.

(** The endpoint answers with one of three statuses, 200, 422 or 500. A 500
    reply carries one of the three fixed messages of the handler, never text
    taken from the exception of the library; a 200 reply carries the
    response. *)
Theorem replies_are_opaque settings host lib raw w :
  let reply := (post_query settings host lib raw w).1 in
  (status reply = 200%Z \/ status reply = 422%Z \/ status reply = 500%Z)
  /\ (status reply = 500%Z ->
      exists detail, body reply = DetailBody detail
        /\ detail ∈ Traces.error_details)
  /\ (status reply = 200%Z -> exists r, body reply = AnswerBody r).
Proof.
  unfold post_query. destruct (validate settings raw) as [errors|request]; simpl.
  - split; [auto|]. split; discriminate.
  - pose proof (query_llm_error_detail settings host lib request w) as Herr.
    destruct (query_llm settings host lib request w) as [[e|r] w']; simpl in *.
    + destruct (Herr e eq_refl) as (detail & -> & Hin). simpl.
      split; [auto|]. split; [|discriminate]. intros _. eauto.
    + split; [auto|]. split; [discriminate|]. intros _. eauto.
Qed.

(** No state is carried from one request to the next: what the handler
    returns or raises depends on the world only through the clock, and the
    status of the reply does not depend on the world at all. *)
Lemma outcome_ignores_history settings host lib :
  (forall request w1 w2,
     clock_reads w1 = clock_reads w2 ->
     (query_llm settings host lib request w1).1
     = (query_llm settings host lib request w2).1)
  /\ (forall raw w1 w2,
        status (post_query settings host lib raw w1).1
        = status (post_query settings host lib raw w2).1).
Proof.
  split.
  - intros request w1 w2 Hclock. run. rewrite Hclock. cases; reflexivity.
  - intros raw w1 w2. unfold post_query.
    destruct (validate settings raw) as [errors|request]; [reflexivity|].
    run. cases; reflexivity.
Qed.

(** Two requests in a row: when both go through, the second makes its six
    calls again after the six of the first; nothing of the first (documents,
    index) is reused. *)
Theorem index_rebuilt_per_request settings host lib r1 r2 w a1 w1 a2 w2 :
  query_llm settings host lib r1 w = (inr a1, w1) ->
  query_llm settings host lib r2 w1 = (inr a2, w2) ->
  calls w2
  = calls w ++ Traces.pipeline_calls settings r1 ++ Traces.pipeline_calls settings r2.
Proof.
  intros H1 H2.
  destruct (calls_prefix settings host lib r1 w) as (k1 & Hc1 & Hk1).
  destruct (calls_prefix settings host lib r2 w1) as (k2 & Hc2 & Hk2).
  rewrite H1 in Hc1, Hk1. rewrite H2 in Hc2, Hk2. simpl in *.
  rewrite (Hk1 a1 eq_refl) in Hc1. rewrite (Hk2 a2 eq_refl) in Hc2.
  rewrite Hc2, Hc1. rewrite <- app_assoc. reflexivity.
Qed.

Lemma index_rebuilt_per_request_witness :
  exists a1 w1 a2 w2,
    query_llm Examples.settings (Examples.host_with (Directory true))
      Examples.echo_lib Examples.request_python initial = (inr a1, w1)
    /\ query_llm Examples.settings (Examples.host_with (Directory true))
         Examples.echo_lib Examples.request_python w1 = (inr a2, w2)
    /\ length (calls w2) = 12%nat.
Proof.
  eexists _, _, _, _.
  match goal with
  | |- ?A /\ ?B /\ _ =>
      assert (H1 : A) by (run; reflexivity);
      assert (H2 : B) by (run; reflexivity)
  end.
  split; [exact H1|]. split; [exact H2|].
  rewrite (index_rebuilt_per_request _ _ _ _ _ _ _ _ _ _ H1 H2).
  reflexivity.
Defined.

End HandlerFacts.

(** ** One call of [evaluate] *)

Module EvaluateFacts.

Import Harness.

(** [evaluate] sends exactly one request, to the endpoint it was given and
    with the question, chunk size and chunk overlap it was given, whatever
    happens afterwards: there is no second attempt, and no file is written. *)
Theorem one_request_no_retry env question expected cs co endpoint w :
  let out := evaluate env question expected cs co endpoint w in
  posts out.2 = posts w ++ [(endpoint, payload question cs co)]
  /\ files out.2 = files w.
Proof.
  pose proof (HarnessFacts.evaluate_cases env question expected cs co endpoint w)
    as (Hp & Hf & _).
  split; assumption.
Qed.

(** A response that passes the status check with a body that parses to
    something other than a JSON object (a list, a string, a number, null)
    makes [evaluate] raise AttributeError at [data.get]; it is not turned
    into a failure record. *)
Theorem non_object_body_raises env question expected cs co endpoint w code data :
  post env (length (posts w)) endpoint (payload question cs co)
  = Responded code (Some data) ->
  ~ (400 <= code < 600)%Z ->
  (forall m, data <> JObj m) ->
  (evaluate env question expected cs co endpoint w).1 = inl (AttributeError "get").
Proof.
  intros Hpost Hcode Hdata.
  pose proof (HarnessFacts.evaluate_cases env question expected cs co endpoint w)
    as (_ & _ & Hc).
  rewrite Hpost in Hc.
  destruct ((400 <=? code)%Z && (code <? 600)%Z) eqn:E; [lia|].
  destruct data; try exact Hc. exfalso. exact (Hdata m eq_refl).
Qed.

Lemma non_object_body_raises_witness :
  (evaluate Scenarios.list_body_env "Where is the candidate studying?" "San Jose"
     512 50 default_endpoint initial).1 = inl (AttributeError "get").
Proof.
  apply (non_object_body_raises Scenarios.list_body_env
           "Where is the candidate studying?" "San Jose" 512 50 default_endpoint
           initial 200 (JArr [JStr "San Jose"])).
  - reflexivity.
  - lia.
  - intros m. discriminate.
Defined.

(** A response that passes the status check with a JSON object whose answer
    is a string, or is left out: the answer, "" when left out, is scored
    against the expected text, one whitespace token list against the other.
    When the scorer returns, the dict carries the chunk size, the latency
    field of the body (null when left out), the score and the answer; when
    the scorer raises, its exception leaves [evaluate]. *)
Theorem answer_is_scored env question expected cs co endpoint w code m s :
  post env (length (posts w)) endpoint (payload question cs co)
  = Responded code (Some (JObj m)) ->
  ~ (400 <= code < 600)%Z ->
  default (JStr "") (m !! "answer") = JStr s ->
  (evaluate env question expected cs co endpoint w).1
  = match sentence_bleu env [split expected] (split s) with
    | inl e => inl e
    | inr b => inr {[ "chunk_size" := JInt cs;
                      "latency" := default JNull (m !! "latency");
                      "bleu" := JFloat b; "answer" := JStr s ]}
    end.
Proof.
  intros Hpost Hcode Hs.
  pose proof (HarnessFacts.evaluate_cases env question expected cs co endpoint w)
    as (_ & _ & Hc).
  rewrite Hpost in Hc.
  destruct ((400 <=? code)%Z && (code <? 600)%Z) eqn:E; [lia|].
  rewrite Hs in Hc. destruct (sentence_bleu env _ _); exact Hc.
Qed.

Lemma answer_is_scored_witness :
  (evaluate Scenarios.scorer_raises_env "Where is the candidate studying?"
     "San Jose" 512 50 default_endpoint initial).1
  = inl (ValueError "math domain error").
Proof.
  exact (answer_is_scored Scenarios.scorer_raises_env
           "Where is the candidate studying?" "San Jose" 512 50 default_endpoint
           initial 200 {[ "answer" := JStr "San Jose"; "latency" := JFloat 2 ]}
           "San Jose" eq_refl ltac:(lia) eq_refl).
Defined.

Lemma evaluate_result_shape env question expected cs co endpoint w res w' :
  evaluate env question expected cs co endpoint w = (inr res, w') ->
  dom res = Traces.result_keys
  /\ res !! "chunk_size" = Some (JInt cs)
  /\ (exists s, res !! "answer" = Some (JStr s))
  /\ (exists b, res !! "bleu" = Some (JFloat b))
  /\ (exists l, res !! "latency" = Some l).
Proof.
  intros Hev.
  pose proof (HarnessFacts.evaluate_cases env question expected cs co endpoint w)
    as (_ & _ & Hc).
  rewrite Hev in Hc. simpl in Hc.
  assert (Hshape : forall l b s,
            res = {[ "chunk_size" := JInt cs; "latency" := l;
                     "bleu" := JFloat b; "answer" := JStr s ]} ->
            dom res = Traces.result_keys
            /\ res !! "chunk_size" = Some (JInt cs)
            /\ (exists s, res !! "answer" = Some (JStr s))
            /\ (exists b, res !! "bleu" = Some (JFloat b))
            /\ (exists l, res !! "latency" = Some l)).
  { intros l b s ->. split; [|split; [reflexivity|split; [|split]]; eauto].
    unfold Traces.result_keys.
    rewrite !dom_insert_L, dom_singleton_L. set_solver. }
  destruct (post env _ _ _) as [|code p].
  - injection Hc as ->. apply (Hshape JNull 0%R ""). reflexivity.
  - destruct ((400 <=? code)%Z && (code <? 600)%Z).
    { injection Hc as ->. apply (Hshape JNull 0%R ""). reflexivity. }
    destruct p as [data|].
    2: { injection Hc as ->. apply (Hshape JNull 0%R ""). reflexivity. }
    destruct data; try discriminate Hc.
    destruct (default (JStr "") (m !! "answer")); try discriminate Hc.
    destruct (sentence_bleu env _ _); [discriminate Hc|].
    injection Hc as ->. eapply Hshape. reflexivity.
Qed.

(** Every dict [evaluate] returns, on the failure path as on the success
    path, has exactly the keys chunk_size, latency, bleu and answer;
    chunk_size is the one it was called with and answer is a string. *)
Theorem result_shape env question expected cs co endpoint w res w' :
  evaluate env question expected cs co endpoint w = (inr res, w') ->
  dom res = Traces.result_keys
  /\ res !! "chunk_size" = Some (JInt cs)
  /\ (exists s, res !! "answer" = Some (JStr s)).
Proof.
  intros Hev.
  destruct (evaluate_result_shape env question expected cs co endpoint w res w' Hev)
    as (Hdom & Hcs & Hanswer & _).
  split; [exact Hdom|]. split; [exact Hcs|exact Hanswer].
Qed.

Lemma result_shape_witness :
  exists res w',
    evaluate Scenarios.answering_env "Where is the candidate studying?" "San Jose"
      512 50 default_endpoint initial = (inr res, w')
    /\ dom res = Traces.result_keys.
Proof.
  eexists _, _.
  match goal with
  | |- ?A /\ _ => assert (H : A) by reflexivity
  end.
  split; [exact H|].
  exact (proj1 (result_shape _ _ _ _ _ _ _ _ _ H)).
Defined.

End EvaluateFacts.

(** ** The sweep and the result file *)

Module SweepFacts.

Import Harness.

Lemma step_files env cs results tq w :
  files (step env cs results tq w).2 = files w.
Proof.
  pose proof (HarnessFacts.evaluate_cases env (question tq) (expected tq) cs
                default_chunk_overlap default_endpoint w) as (_ & Hf & _).
  unfold step, bind at 1.
  destruct (evaluate env _ _ _ _ _ w) as [[e|res] w1]; simpl in *; [exact Hf|].
  unfold bind, getitem, logger, modify, raise, ret.
  cases; exact Hf.
Qed.

(** When the loop body returns, it has appended the dict of [evaluate]
    tagged with the question. *)
Lemma step_returns env cs results tq w results' w' :
  step env cs results tq w = (inr results', w') ->
  exists res w1,
    evaluate env (question tq) (expected tq) cs default_chunk_overlap
      default_endpoint w = (inr res, w1)
    /\ results' = results ++ [ <["question" := JStr (question tq)]> res ].
Proof.
  unfold step, bind at 1.
  destruct (evaluate env _ _ _ _ _ w) as [[e|res] w1]; simpl; [discriminate|].
  unfold bind, getitem, logger, modify, raise, ret.
  cases; intros H; try discriminate H. injection H as <- _. eauto.
Qed.

Lemma step_row env cs results tq w results' w' :
  step env cs results tq w = (inr results', w') ->
  exists row, results' = results ++ [row] /\ Traces.row_for (cs, tq) row.
Proof.
  intros H. apply step_returns in H as (res & w1 & Hev & ->).
  apply EvaluateFacts.evaluate_result_shape in Hev as (Hdom & Hcs & _).
  eexists. split; [reflexivity|]. split; [|split].
  - rewrite dom_insert_L, Hdom. unfold Traces.row_keys, Traces.result_keys.
    set_solver.
  - rewrite lookup_insert_ne by discriminate. exact Hcs.
  - apply lookup_insert_eq.
Qed.

(** A loop whose body sends an initial part of the requests planned for its
    element, and all of them when it returns, sends an initial part of the
    requests planned for its list, and all of them when it returns. *)
Lemma for_each_prefix {X A : Type} (planned : X -> list (string * gmap string json))
    (xs : list X) (body : A -> X -> M World A) :
  (forall x acc w, exists k,
      (k <= length (planned x))%nat
      /\ posts (body acc x w).2 = posts w ++ take k (planned x)
      /\ (forall a, (body acc x w).1 = inr a -> k = length (planned x))) ->
  forall acc w, exists k,
    (k <= length (flat_map planned xs))%nat
    /\ posts (for_each xs body acc w).2 = posts w ++ take k (flat_map planned xs)
    /\ (forall a, (for_each xs body acc w).1 = inr a
                  -> k = length (flat_map planned xs)).
Proof.
  intros Hbody. induction xs as [|x rest IH]; intros acc w.
  - exists 0%nat. simpl. rewrite app_nil_r. repeat split; auto.
  - simpl. unfold bind. destruct (Hbody x acc w) as (k1 & Hk1 & Hp1 & Hall1).
    destruct (body acc x w) as [[e|acc'] w1]; simpl in *.
    + exists k1. split; [rewrite length_app; lia|]. split; [|discriminate].
      rewrite take_app_le by exact Hk1. exact Hp1.
    + destruct (IH acc' w1) as (k2 & Hk2 & Hp2 & Hall2).
      pose proof (Hall1 acc' eq_refl) as ->.
      exists (length (planned x) + k2)%nat.
      split; [rewrite length_app; lia|]. split.
      * rewrite Hp2, Hp1, take_ge by lia. rewrite take_app_add.
        rewrite <- app_assoc. reflexivity.
      * intros a Ha. rewrite length_app, (Hall2 a Ha). reflexivity.
Qed.

Lemma flat_map_singleton {X Y : Type} (f : X -> Y) (xs : list X) :
  flat_map (fun x => [f x]) xs = map f xs.
Proof. induction xs as [|x rest IH]; simpl; [reflexivity|rewrite IH; reflexivity]. Qed.

Lemma requests_of_pairs chunk_sizes queries :
  map Traces.request_of (Traces.pairs chunk_sizes queries)
  = flat_map (fun cs => map (fun tq => Traces.request_of (cs, tq)) queries) chunk_sizes.
Proof.
  unfold Traces.pairs. induction chunk_sizes as [|cs rest IH]; simpl; [reflexivity|].
  rewrite map_app, IH. f_equal. rewrite map_map. reflexivity.
Qed.

Lemma sweep_prefix env chunk_sizes queries w :
  exists k,
    (k <= length (Traces.pairs chunk_sizes queries))%nat
    /\ posts (sweep env chunk_sizes queries w).2
       = posts w ++ take k (map Traces.request_of (Traces.pairs chunk_sizes queries))
    /\ (forall results, (sweep env chunk_sizes queries w).1 = inr results ->
        k = length (Traces.pairs chunk_sizes queries)).
Proof.
  rewrite requests_of_pairs.
  replace (length (Traces.pairs chunk_sizes queries))
    with (length (flat_map (fun cs => map (fun tq => Traces.request_of (cs, tq)) queries)
                    chunk_sizes))
    by (rewrite <- requests_of_pairs; apply length_map).
  unfold sweep. apply for_each_prefix. intros cs acc w0.
  unfold pass, bind at 1.
  destruct (logger INFO "Evaluating chunk_size=%d" [ArgInt cs] w0) as [r w1] eqn:Hlog.
  unfold logger, modify in Hlog. injection Hlog as <- <-.
  match goal with
  | |- context [for_each queries (step env cs) acc ?w1] =>
      destruct (for_each_prefix (fun tq => [Traces.request_of (cs, tq)]) queries
                  (step env cs)) with (acc := acc) (w := w1) as (k & Hk & Hp & Hall)
  end.
  - intros tq acc1 w1. exists 1%nat. split; [reflexivity|].
    split; [apply HarnessFacts.step_posts|]. reflexivity.
  - rewrite flat_map_singleton in Hk, Hp, Hall.
    exists k. simpl in Hp. split; [exact Hk|]. split; [exact Hp|exact Hall].
Qed.

(** Whatever the endpoint answers, the requests of a sweep are an initial
    part of the list of its pairs, in the order of the pairs: chunk sizes in
    the given order and, for each, the queries in the given order; each pair
    is requested at most once. *)
Theorem requests_in_sweep_order env chunk_sizes queries w :
  exists k,
    posts (run_evaluation env chunk_sizes queries w).2
    = posts w ++ take k (map Traces.request_of (Traces.pairs chunk_sizes queries)).
Proof.
  destruct (sweep_prefix env chunk_sizes queries w) as (k & _ & Hp & _).
  exists k. unfold run_evaluation, bind at 1.
  destruct (sweep env chunk_sizes queries w) as [[e|results] w1]; simpl in *;
    [exact Hp|].
  unfold bind, write_json, logger, modify, raise. cases; exact Hp.
Qed.

Lemma inner_rows env cs queries :
  forall results w results' w',
    for_each queries (step env cs) results w = (inr results', w') ->
    exists rows,
      results' = results ++ rows
      /\ Forall2 Traces.row_for (map (fun tq => (cs, tq)) queries) rows.
Proof.
  induction queries as [|tq rest IH]; intros results w results' w' H.
  - simpl in H. injection H as <- _. exists []. rewrite app_nil_r.
    split; [reflexivity|constructor].
  - simpl in H. unfold bind in H.
    destruct (step env cs results tq w) as [[e|r1] w1] eqn:Es; [discriminate H|].
    apply step_row in Es as (row & -> & Hrow).
    apply IH in H as (rows & -> & Hrows).
    exists (row :: rows). rewrite <- app_assoc. split; [reflexivity|].
    constructor; assumption.
Qed.

Lemma outer_rows env queries chunk_sizes :
  forall results w results' w',
    for_each chunk_sizes (pass env queries) results w = (inr results', w') ->
    exists rows,
      results' = results ++ rows
      /\ Forall2 Traces.row_for (Traces.pairs chunk_sizes queries) rows.
Proof.
  induction chunk_sizes as [|cs rest IH]; intros results w results' w' H.
  - simpl in H. injection H as <- _. exists []. rewrite app_nil_r.
    split; [reflexivity|constructor].
  - simpl in H. unfold bind in H.
    destruct (pass env queries results cs w) as [[e|r1] w1] eqn:Ep; [discriminate H|].
    unfold pass, bind in Ep.
    destruct (logger INFO "Evaluating chunk_size=%d" [ArgInt cs] w) as [[e|u] w0];
      [discriminate Ep|].
    apply inner_rows in Ep as (rows1 & -> & Hrows1).
    apply IH in H as (rows2 & -> & Hrows2).
    exists (rows1 ++ rows2). rewrite <- app_assoc. split; [reflexivity|].
    simpl. apply Forall2_app; assumption.
Qed.

(** A sweep that returns, whatever the endpoint answered, returns exactly
    one record per (chunk_size, query) pair, in the order of the pairs; each
    record has the five keys chunk_size, latency, bleu, answer and question
    and is tagged with the chunk size and the question of its pair; exactly
    one request per pair was sent, and no file was written. *)
Theorem sweep_returns_one_row_per_pair env chunk_sizes queries w results w' :
  sweep env chunk_sizes queries w = (inr results, w') ->
  Forall2 Traces.row_for (Traces.pairs chunk_sizes queries) results
  /\ length results = (length chunk_sizes * length queries)%nat
  /\ posts w' = posts w ++ map Traces.request_of (Traces.pairs chunk_sizes queries).
Proof.
  intros H.
  assert (Hrows : Forall2 Traces.row_for (Traces.pairs chunk_sizes queries) results).
  { unfold sweep in H. apply outer_rows in H as (rows & -> & Hrows). exact Hrows. }
  split; [exact Hrows|]. split.
  - rewrite <- (Forall2_length _ _ _ Hrows). unfold Traces.pairs.
    clear. induction chunk_sizes as [|cs rest IH]; simpl; [reflexivity|].
    rewrite length_app, length_map, IH. reflexivity.
  - destruct (sweep_prefix env chunk_sizes queries w) as (k & Hk & Hp & Hall).
    rewrite H in Hp, Hall. simpl in Hp, Hall.
    rewrite (Hall results eq_refl) in Hp.
    rewrite take_ge in Hp by (rewrite length_map; lia). exact Hp.
Qed.

Lemma sweep_returns_one_row_per_pair_witness :
  let out := sweep Scenarios.answering_env [256; 512]%Z [Scenarios.short_query]
               initial in
  out.1 = inr [ {[ "chunk_size" := JInt 256; "latency" := JFloat 2;
                   "bleu" := JFloat (1 / 2); "answer" := JStr "San Jose";
                   "question" := JStr "Where?" ]};
                {[ "chunk_size" := JInt 512; "latency" := JFloat 2;
                   "bleu" := JFloat (1 / 2); "answer" := JStr "San Jose";
                   "question" := JStr "Where?" ]} ]
  /\ length (posts out.2) = 2%nat.
Proof.
  intros out.
  assert (E : out.1 = inr [ {[ "chunk_size" := JInt 256; "latency" := JFloat 2;
                               "bleu" := JFloat (1 / 2); "answer" := JStr "San Jose";
                               "question" := JStr "Where?" ]};
                            {[ "chunk_size" := JInt 512; "latency" := JFloat 2;
                               "bleu" := JFloat (1 / 2); "answer" := JStr "San Jose";
                               "question" := JStr "Where?" ]} ])
    by reflexivity.
  split; [exact E|].
  match type of E with
  | _ = ?r =>
      assert (H : sweep Scenarios.answering_env [256; 512]%Z [Scenarios.short_query]
                    initial = (r, out.2))
        by (rewrite <- E; apply surjective_pairing)
  end.
  destruct (sweep_returns_one_row_per_pair Scenarios.answering_env [256; 512]%Z
              [Scenarios.short_query] initial _ _ H) as (_ & _ & Hposts).
  rewrite Hposts. reflexivity.
Defined.

Lemma inner_files env cs queries :
  forall acc w, files (for_each queries (step env cs) acc w).2 = files w.
Proof.
  induction queries as [|tq rest IH]; intros acc w; [reflexivity|].
  simpl. unfold bind.
  pose proof (step_files env cs acc tq w) as Hs.
  destruct (step env cs acc tq w) as [[e|a] w1]; simpl in *; [exact Hs|].
  rewrite IH. exact Hs.
Qed.

Lemma pass_files env queries acc cs w :
  files (pass env queries acc cs w).2 = files w.
Proof.
  unfold pass, bind at 1.
  destruct (logger INFO "Evaluating chunk_size=%d" [ArgInt cs] w) as [r w1] eqn:Hlog.
  unfold logger, modify in Hlog. injection Hlog as <- <-.
  rewrite inner_files. reflexivity.
Qed.

Lemma sweep_files env chunk_sizes queries w :
  files (sweep env chunk_sizes queries w).2 = files w.
Proof.
  unfold sweep. generalize (@nil (gmap string json)). revert w.
  induction chunk_sizes as [|cs rest IH]; intros w acc; [reflexivity|].
  simpl. unfold bind at 1.
  pose proof (pass_files env queries acc cs w) as Hp.
  destruct (pass env queries acc cs w) as [[e|a] w1]; simpl in *; [exact Hp|].
  rewrite IH. exact Hp.
Qed.

(** The result file is opened only after the whole sweep: a run whose sweep
    raises ends with that exception and with every file as it was; a run
    that returns has replaced the file named [out_file] by the records of
    the sweep; no other file is ever touched. *)
Theorem result_file_written_last env chunk_sizes queries w :
  let out := run_evaluation env chunk_sizes queries w in
  (forall e, (sweep env chunk_sizes queries w).1 = inl e ->
     out.1 = inl e /\ files out.2 = files w)
  /\ (out.1 = inr tt ->
      exists results,
        (sweep env chunk_sizes queries w).1 = inr results
        /\ files out.2 = <[out_file env := JArr (map JObj results)]> (files w))
  /\ (forall name, name <> out_file env -> files out.2 !! name = files w !! name).
Proof.
  pose proof (sweep_files env chunk_sizes queries w) as Hf.
  destruct (sweep env chunk_sizes queries w) as [[e|results] w1] eqn:Hs;
    simpl in Hf.
  - assert (Hrun : run_evaluation env chunk_sizes queries w = (inl e, w1)).
    { unfold run_evaluation, bind at 1. rewrite Hs. reflexivity. }
    cbv zeta. rewrite Hrun. simpl.
    split; [intros e' He; injection He as <-; split; [reflexivity|exact Hf]|].
    split; [discriminate|].
    intros name _. rewrite Hf. reflexivity.
  - destruct (can_open env (out_file env)) eqn:Hopen.
    + assert (Hrun : exists w2,
                run_evaluation env chunk_sizes queries w = (inr tt, w2)
                /\ files w2 = <[out_file env := JArr (map JObj results)]> (files w)).
      { unfold run_evaluation, bind at 1. rewrite Hs.
        unfold bind, write_json. rewrite Hopen. unfold logger, modify. simpl.
        eexists. split; [reflexivity|]. simpl. rewrite Hf. reflexivity. }
      destruct Hrun as (w2 & Hrun & Hfiles).
      cbv zeta. rewrite Hrun. simpl.
      split; [discriminate|]. split.
      * intros _. exists results. split; [reflexivity|exact Hfiles].
      * intros name Hname. rewrite Hfiles.
        apply lookup_insert_ne. congruence.
    + assert (Hrun : run_evaluation env chunk_sizes queries w
                     = (inl (OSError (out_file env)), w1)).
      { unfold run_evaluation, bind at 1. rewrite Hs.
        unfold bind, write_json. rewrite Hopen. reflexivity. }
      cbv zeta. rewrite Hrun. simpl.
      split; [discriminate|]. split; [discriminate|].
      intros name _. rewrite Hf. reflexivity.
Qed.

(** When the result file cannot be opened, the run raises OSError after the
    whole sweep: every pair was requested, the records are lost, and no file
    is written. *)
Theorem unwritable_result_file env chunk_sizes queries w results w1 :
  can_open env (out_file env) = false ->
  sweep env chunk_sizes queries w = (inr results, w1) ->
  run_evaluation env chunk_sizes queries w = (inl (OSError (out_file env)), w1)
  /\ posts w1 = posts w ++ map Traces.request_of (Traces.pairs chunk_sizes queries)
  /\ files w1 = files w.
Proof.
  intros Hopen Hsweep.
  pose proof (sweep_files env chunk_sizes queries w) as Hf.
  destruct (sweep_prefix env chunk_sizes queries w) as (k & Hk & Hp & Hall).
  rewrite Hsweep in Hf, Hp, Hall. simpl in Hf, Hp, Hall.
  rewrite (Hall results eq_refl) in Hp.
  rewrite take_ge in Hp by (rewrite length_map; lia).
  split; [|split; assumption].
  unfold run_evaluation, bind at 1. rewrite Hsweep.
  unfold bind, write_json. rewrite Hopen. reflexivity.
Qed.

Lemma unwritable_result_file_witness :
  let out := run_evaluation Scenarios.read_only_env [256; 512]%Z
               [Scenarios.short_query] initial in
  can_open Scenarios.read_only_env (out_file Scenarios.read_only_env) = false
  /\ out.1 = inl (OSError "eval_results_20240101-120000.json")
  /\ length (posts out.2) = 2%nat.
Proof.
  intros out. split; [reflexivity|].
  assert (E : (sweep Scenarios.read_only_env [256; 512]%Z [Scenarios.short_query]
                 initial).1
              = inr [ {[ "chunk_size" := JInt 256; "latency" := JFloat 2;
                         "bleu" := JFloat (1 / 2); "answer" := JStr "San Jose";
                         "question" := JStr "Where?" ]};
                      {[ "chunk_size" := JInt 512; "latency" := JFloat 2;
                         "bleu" := JFloat (1 / 2); "answer" := JStr "San Jose";
                         "question" := JStr "Where?" ]} ])
    by reflexivity.
  match type of E with
  | _ = ?r =>
      assert (H : sweep Scenarios.read_only_env [256; 512]%Z [Scenarios.short_query]
                    initial
                  = (r, (sweep Scenarios.read_only_env [256; 512]%Z
                           [Scenarios.short_query] initial).2))
        by (rewrite <- E; apply surjective_pairing)
  end.
  destruct (unwritable_result_file Scenarios.read_only_env [256; 512]%Z
              [Scenarios.short_query] initial _ _ eq_refl H) as (Hrun & Hposts & _).
  unfold out. rewrite Hrun. simpl. split; [reflexivity|].
  rewrite Hposts. reflexivity.
Defined.

End SweepFacts.

(** ** Whitespace tokens *)

Module SplitFacts.

Lemma append_cons (x : ascii) (a b : string) : String x a +:+ b = String x (a +:+ b).
Proof. reflexivity. Qed.

Lemma append_assoc (a b c : string) : (a +:+ b) +:+ c = a +:+ (b +:+ c).
Proof.
  induction a as [|x a IH]; [reflexivity|].
  rewrite !append_cons, IH. reflexivity.
Qed.

Lemma append_nil_r (a : string) : a +:+ "" = a.
Proof.
  induction a as [|x a IH]; [reflexivity|]. rewrite append_cons, IH. reflexivity.
Qed.

Lemma no_space_append (a b : string) :
  Traces.no_space (a +:+ b) = Traces.no_space a && Traces.no_space b.
Proof.
  induction a as [|x a IH]; [reflexivity|].
  rewrite append_cons. simpl. rewrite IH, andb_assoc. reflexivity.
Qed.

Lemma split_from_tokens (s cur : string) :
  Traces.no_space cur = true ->
  Forall (fun t => t <> "" /\ Traces.no_space t = true) (split_from cur s).
Proof.
  revert cur. induction s as [|c s IH]; intros cur Hcur; simpl.
  - destruct (decide (cur = "")); constructor; [split; assumption|constructor].
  - destruct (isspace c) eqn:Ec.
    + apply Forall_app. split; [|apply IH; reflexivity].
      destruct (decide (cur = "")); constructor; [split; assumption|constructor].
    + apply IH. rewrite no_space_append, Hcur. simpl. rewrite Ec. reflexivity.
Qed.

(** The tokens of [s.split()] are never empty and never contain a space
    character, whatever the text: leading, trailing and repeated spaces
    produce no token. *)
Theorem tokens_are_words (s : string) :
  Forall (fun t => t <> "" /\ Traces.no_space t = true) (split s).
Proof. apply split_from_tokens. reflexivity. Qed.

Lemma split_from_word (t s cur : string) :
  Traces.no_space t = true ->
  split_from cur (t +:+ s) = split_from (cur +:+ t) s.
Proof.
  revert cur. induction t as [|c t IH]; intros cur Ht.
  - rewrite append_nil_r. reflexivity.
  - simpl in Ht. apply andb_true_iff in Ht as [Hc Ht].
    apply negb_true_iff in Hc. rewrite append_cons. simpl.
    rewrite Hc, (IH _ Ht), append_assoc. reflexivity.
Qed.

Lemma split_from_space (cur s : string) :
  split_from cur (String " " s)
  = (if decide (cur = "") then [] else [cur]) ++ split_from "" s.
Proof. reflexivity. Qed.

(** Splitting undoes joining: words that are not empty and contain no space
    character, joined by single spaces, split back into the same words. *)
Theorem split_join (tokens : list string) :
  Forall (fun t => t <> "" /\ Traces.no_space t = true) tokens ->
  split (Traces.join tokens) = tokens.
Proof.
  unfold split. induction 1 as [|t rest [Hne Ht] Hrest IH]; [reflexivity|].
  destruct rest as [|t2 rest].
  - simpl. rewrite <- (append_nil_r t) at 1. rewrite (split_from_word t "" "" Ht).
    change ("" +:+ t) with t. simpl.
    destruct (decide (t = "")); [contradiction|reflexivity].
  - change (Traces.join (t :: t2 :: rest))
      with (t +:+ String " " (Traces.join (t2 :: rest))).
    rewrite (split_from_word t _ "" Ht). change ("" +:+ t) with t.
    rewrite split_from_space.
    destruct (decide (t = "")); [contradiction|]. rewrite IH. reflexivity.
Qed.

Lemma split_join_witness :
  Forall (fun t => t <> "" /\ Traces.no_space t = true) ["San"; "Jose"; "State"]
  /\ split "San Jose State" = ["San"; "Jose"; "State"].
Proof.
  assert (H : Forall (fun t => t <> "" /\ Traces.no_space t = true)
                ["San"; "Jose"; "State"]).
  { repeat constructor; discriminate. }
  split; [exact H|]. exact (split_join ["San"; "Jose"; "State"] H).
Defined.

End SplitFacts.

(** ** The harness in front of the query service *)

Module EndToEnd.

Import Harness.

(** The body the harness sends is read by the service as a request with the
    question, the chunk size and the chunk overlap given and no model. *)
Lemma parse_payload question cs co :
  Service.parse_body (payload question cs co) = Some (Traces.raw_of question cs co).
Proof. reflexivity. Qed.

(** The service accepts the request of the harness exactly when the
    question is not empty and chunk size and chunk overlap are within the
    configured bounds. *)
Lemma harness_request_accepted settings question cs co :
  (exists request,
     Service.validate settings (Traces.raw_of question cs co) = inr request)
  <-> question <> ""
      /\ (1 <= cs <= Service.MAX_CHUNK_SIZE settings)%Z
      /\ (0 <= co <= Service.MAX_CHUNK_OVERLAP settings)%Z.
Proof.
  split.
  - intros [request H].
    apply ValidationFacts.validate_inr in H as (Hq & Hcs & Hco & _).
    unfold Traces.raw_of in Hq, Hcs, Hco.
    cbn [Service.raw_question Service.raw_chunk_size Service.raw_chunk_overlap]
      in Hq, Hcs, Hco.
    apply ValidationFacts.validate_question_inr in Hq as [Hq Hne].
    injection Hq as Hq.
    apply ValidationFacts.validate_int_inr in Hcs as [[H _] | [H Hcs]];
      [discriminate H|].
    apply ValidationFacts.validate_int_inr in Hco as [[H' _] | [H' Hco]];
      [discriminate H'|].
    injection H as H. injection H' as H'.
    rewrite Hq, H, H'. split; [exact Hne|]. split; assumption.
  - intros (Hq & Hcs & Hco).
    apply ServiceFacts.validate_valid. split; [|split; [|split]].
    + exists question. split; [reflexivity|exact Hq].
    + intros x H. simpl in H. injection H as <-. exact Hcs.
    + intros x H. simpl in H. injection H as <-. exact Hco.
    + intros x H. discriminate H.
Qed.

(** The requests of [main] against a service: all of them are accepted
    exactly when the service allows chunk sizes up to 1024 and overlaps up to
    50; so a service with the default settings rejects none, and one whose
    MAX_CHUNK_SIZE is below 1024 rejects part of every run. *)
Theorem sweep_accepted_iff settings :
  (forall pair, pair ∈ Traces.pairs [256; 512; 1024]%Z TEST_QUERIES ->
     exists raw request,
       Service.parse_body (Traces.request_of pair).2 = Some raw
       /\ Service.validate settings raw = inr request)
  <-> (1024 <= Service.MAX_CHUNK_SIZE settings)%Z
      /\ (50 <= Service.MAX_CHUNK_OVERLAP settings)%Z.
Proof.
  split.
  - intros H.
    destruct (H (1024%Z, Examples.first_query)) as (raw & request & Hp & Hv).
    { unfold Traces.pairs, TEST_QUERIES, Examples.first_query. simpl.
      rewrite !elem_of_cons. auto 10. }
    unfold Traces.request_of in Hp. simpl in Hp. rewrite parse_payload in Hp.
    injection Hp as <-.
    destruct (proj1 (harness_request_accepted settings _ _ _)
                (ex_intro _ request Hv)) as (_ & Hcs & Hco).
    unfold default_chunk_overlap in Hco. lia.
  - intros [Hcs Hco] [cs tq] Hin.
    unfold Traces.request_of. simpl. rewrite parse_payload.
    assert (Hok : question tq <> "" /\ (1 <= cs <= 1024)%Z).
    { unfold Traces.pairs, TEST_QUERIES in Hin. simpl in Hin.
      rewrite !elem_of_cons, elem_of_nil in Hin.
      repeat destruct Hin as [Hin | Hin]; try contradiction;
        injection Hin as -> ->; simpl; (split; [discriminate|lia]). }
    destruct Hok as [Hq Hb].
    destruct (proj2 (harness_request_accepted settings (question tq) cs
                       default_chunk_overlap)) as [request Hv].
    { split; [exact Hq|]. unfold default_chunk_overlap. split; lia. }
    eauto.
Qed.

(** One request of the harness answered by the query service, the body of
    a 200 reply being delivered as the service serialises it: when the
    service answers 200, the dict carries the answer and the latency of the
    service, a float that is not negative, with the score of that answer;
    when it answers 422 or 500, [evaluate] returns the failure dict. *)
Theorem served_by_query_service settings host lib sw env question expected cs co
    endpoint w p :
  let reply := (Service.post_query settings host lib
                  (Traces.raw_of question cs co) sw).1 in
  post env (length (posts w)) endpoint (payload question cs co)
  = Responded (Service.status reply) p ->
  (forall r, Service.body reply = Service.AnswerBody r ->
             p = Some (Service.response_json r)) ->
  Service.monotonic host ->
  let out := evaluate env question expected cs co endpoint w in
  (Service.status reply = 200%Z
   /\ exists r, Service.body reply = Service.AnswerBody r
        /\ (0 <= Service.latency r)%R
        /\ out.1 = match sentence_bleu env [split expected]
                           (split (Service.answer r)) with
                   | inl e => inl e
                   | inr b => inr {[ "chunk_size" := JInt cs;
                                     "latency" := JFloat (Service.latency r);
                                     "bleu" := JFloat b;
                                     "answer" := JStr (Service.answer r) ]}
                   end)
  \/ ((Service.status reply = 422%Z \/ Service.status reply = 500%Z)
      /\ out.1 = inr (failure_result cs)).
Proof.
  intros reply Hpost Hbody Hmono out.
  pose proof (HarnessFacts.evaluate_cases env question expected cs co endpoint w)
    as (_ & _ & Hc).
  fold out in Hc. rewrite Hpost in Hc.
  subst reply. unfold Service.post_query in *.
  destruct (Service.validate settings (Traces.raw_of question cs co))
    as [errors|request].
  - simpl in *. right. split; [auto|exact Hc].
  - pose proof (ServiceFacts.query_llm_outcome settings host lib request sw) as Hout.
    destruct (Service.query_llm settings host lib request sw) as [[e|r] sw'].
    + destruct Hout as [detail ->]. simpl in *. right. split; [auto|exact Hc].
    + simpl in *. left. split; [reflexivity|]. exists r. split; [reflexivity|].
      split.
      * rewrite Hout.
        pose proof (Hmono (Service.clock_reads sw) (S (Service.clock_reads sw))
                      ltac:(lia)). lra.
      * rewrite (Hbody r eq_refl) in Hc. unfold Service.response_json in Hc.
        rewrite lookup_insert_eq in Hc. simpl in Hc.
        rewrite lookup_insert_ne in Hc by discriminate.
        rewrite lookup_insert_eq in Hc. simpl in Hc.
        destruct (sentence_bleu env _ _); exact Hc.
Qed.

Lemma served_by_query_service_witness :
  Service.monotonic (Examples.host_with (Service.Directory true))
  /\ (evaluate Scenarios.served_env "Where?" "San Jose" 512 50 default_endpoint
        initial).1
     = inr {[ "chunk_size" := JInt 512; "latency" := JFloat (INR 1 - INR 0);
              "bleu" := JFloat (1 / 2); "answer" := JStr "42" ]}.
Proof.
  assert (Hm : Service.monotonic (Examples.host_with (Service.Directory true))).
  { intros i j Hij. simpl. apply le_INR. exact Hij. }
  split; [exact Hm|].
  assert (Hbody : forall r,
            Service.body
              (Service.post_query Examples.settings
                 (Examples.host_with (Service.Directory true)) Examples.echo_lib
                 (Traces.raw_of "Where?" 512 50) Service.initial).1
            = Service.AnswerBody r ->
            Some (Service.response_json
                    {| Service.answer := "42";
                       Service.latency := (INR 1 - INR 0)%R |})
            = Some (Service.response_json r)).
  { intros r H.
    change (Service.AnswerBody {| Service.answer := "42";
                                  Service.latency := (INR 1 - INR 0)%R |}
            = Service.AnswerBody r) in H.
    injection H as <-. reflexivity. }
  destruct (served_by_query_service Examples.settings
              (Examples.host_with (Service.Directory true)) Examples.echo_lib
              Service.initial Scenarios.served_env "Where?" "San Jose" 512 50
              default_endpoint initial _ eq_refl Hbody Hm)
    as [(_ & r & Hr & _ & Hout) | ([H | H] & _)].
  - change (Service.AnswerBody {| Service.answer := "42";
                                  Service.latency := (INR 1 - INR 0)%R |}
            = Service.AnswerBody r) in Hr.
    injection Hr as <-. exact Hout.
  - discriminate H.
  - discriminate H.
Defined.

End EndToEnd.
